(** * drivers/power/powerled.c: the upper half of the power-LED driver

    A shallow embedding of the three file operations of the character
    driver ([powerled_open], [powerled_close], [powerled_ioctl]) and of
    [powerled_register], followed by the properties of the open/close
    reference counting and of the command dispatcher.

    The code is sequential C that mutates one [struct powerled_dev_s],
    calls the lower half through a table of function pointers and may
    block on a semaphore.  It is written here in a small monad over the
    state of the system whose results are: the call returned, the call
    blocks for ever on the semaphore, or an assertion failed. *)

From Stdlib Require Import ZArith List String Bool Lia.
From Stdlib Require Import SpecFloat.
Import ListNotations.
Local Open Scope Z_scope.

(** ** Integer types *)

(** [uint8_t] arithmetic wraps modulo 256. *)
Definition uint8 (z : Z) : Z := z mod 256.

(** The mode argument [0444] of [register_driver] (an octal literal). *)
Definition mode_0444 : Z := 4 * 64 + 4 * 8 + 4.

(** ** Constants of headers that are not part of the translation unit

    <sys/types.h>, <errno.h>, <nuttx/power/power_ioctl.h>,
    <nuttx/power/powerled.h> and <nuttx/config.h> give the values below.
    The driver only relies on two facts: [ERROR], the status of a failed
    library call, differs from [OK]; and the nine case labels of the
    [switch] in [powerled_ioctl] are pairwise distinct (C refuses a
    [switch] with a duplicated label). *)
Record headers : Type := {
  OK : Z;
  ERROR : Z;
  EPERM : Z;
  EMFILE : Z;
  PWRIOC_START : Z;
  PWRIOC_STOP : Z;
  PWRIOC_SET_MODE : Z;
  PWRIOC_SET_LIMITS : Z;
  PWRIOC_GET_STATE : Z;
  PWRIOC_SET_FAULT : Z;
  PWRIOC_GET_FAULT : Z;
  PWRIOC_CLEAN_FAULT : Z;
  PWRIOC_SET_PARAMS : Z;
  POWERLED_OPMODE_CONTINUOUS : Z;
  POWERLED_OPMODE_FLASH : Z;
  CONFIG_DEBUG_ASSERTIONS : bool;
  ERROR_not_OK : ERROR <> OK;
  PWRIOC_distinct :
    NoDup [PWRIOC_START; PWRIOC_STOP; PWRIOC_SET_MODE; PWRIOC_SET_LIMITS;
           PWRIOC_GET_STATE; PWRIOC_SET_FAULT; PWRIOC_GET_FAULT;
           PWRIOC_CLEAN_FAULT; PWRIOC_SET_PARAMS]
}.

(** The command identifiers that [powerled_ioctl] has a [case] for. *)
Definition recognized (hdr : headers) : list Z :=
  [PWRIOC_START hdr; PWRIOC_STOP hdr; PWRIOC_SET_MODE hdr;
   PWRIOC_SET_LIMITS hdr; PWRIOC_GET_STATE hdr; PWRIOC_SET_FAULT hdr;
   PWRIOC_GET_FAULT hdr; PWRIOC_CLEAN_FAULT hdr; PWRIOC_SET_PARAMS hdr].

(** ** C [float] values

    The [float] members hold IEEE 754 binary32 data, represented by
    [spec_float] (sign, mantissa, exponent; zeros, infinities, NaN).  The
    driver compares them with the constants [0.0] and [100.0]; both are
    exactly representable in binary32, and the promotion to [double] that
    C performs before comparing is exact, so the comparisons are those of
    [SFltb] and [SFleb].  A NaN is unordered: every comparison with it is
    false. *)
Definition float : Type := spec_float.

Definition float_0 : float := S754_zero false.

(** 100 = 13107200 * 2^-17, with a 24-bit mantissa. *)
Definition float_100 : float := S754_finite false 13107200 (-17).

(** [x < y], [x <= y] and [x > y] of C on floats. *)
Definition flt (x y : float) : bool := SFltb x y.
Definition fle (x y : float) : bool := SFleb x y.
Definition fgt (x y : float) : bool := SFltb y x.

(** ** Structures of <nuttx/power/powerled.h>

    The header is not among the sources; each structure has the members
    that the driver uses, with the types the specification gives them. *)

Module Limits.

(** Modelled from the spec: [struct powerled_limits_s], the limits
    structure {current: numeric, lock: bool}.  The driver compares
    [current] with 0; it is a [float], as the parameters are. *)
Record powerled_limits_s : Type := {
  lock : bool;
  current : float
}.

End Limits.

Module Params.

(** Modelled from the spec: [struct powerled_params_s], the parameter
    structure {brightness: float, frequency: float, duty: float,
    lock: bool}. *)
Record powerled_params_s : Type := {
  lock : bool;
  brightness : float;
  frequency : float;
  duty : float
}.

End Params.

Import Limits Params.

(** Modelled from the spec: [struct powerled_s], the control block that
    [dev->priv] points to, with the members that the driver reads: the
    mode, the limits and the parameters. *)
Record powerled_s : Type := {
  opmode : Z;
  limits : powerled_limits_s;
  param : powerled_params_s
}.

(** [sem_t]: the counter, and whether the semaphore is initialised
    ([nxsem_init]) or has been destroyed ([sem_destroy]). *)
Record sem_t : Type := {
  semcount : Z;
  sem_live : bool
}.

Section Model.

(** The state of the hardware and whatever else the lower half keeps. *)
Variable H : Type.

(** Everything outside [struct powerled_dev_s] that a lower-half operation
    may read and write through the pointers it receives: the control block
    [*dev->priv], the caller-owned structures that ioctl arguments point
    to, and the hardware.  [user_params a] is the [struct
    powerled_params_s] read at address [a]. *)
Record store : Type := {
  priv : powerled_s;
  user_params : Z -> powerled_params_s;
  hw : H
}.

(** Modelled from the spec: [struct powerled_ops_s], the table of the
    twelve operations of the lower half, with the arguments the driver
    passes.  Every operation receives [dev]; it returns an [int] and may
    change the store.  The members are functions, so none of them is
    [NULL]: [powerled_register] asserts this of the table before the
    device is exposed. *)
Record powerled_ops_s : Type := {
  setup : store -> Z * store;
  shutdown : store -> Z * store;
  stop : store -> Z * store;
  start : store -> Z * store;
  params_set : Z -> store -> Z * store;
  mode_set : Z -> store -> Z * store;
  limits_set : Z -> store -> Z * store;
  fault_set : Z -> store -> Z * store;
  state_get : Z -> store -> Z * store;
  fault_get : Z -> store -> Z * store;
  fault_clean : Z -> store -> Z * store;
  ioctl : Z -> Z -> store -> Z * store
}.

(** Modelled from the spec: [struct powerled_dev_s], the session, with
    the members that the driver uses.  [ocount] is a [uint8_t], [lower] a
    pointer ([0] is [NULL]).  The pointee of [priv] lives in the
    [store]. *)
Record powerled_dev_s : Type := {
  ops : powerled_ops_s;
  ocount : Z;
  closesem : sem_t;
  lower : Z
}.

(** A call of the lower half through [dev->ops], with its arguments. *)
Inductive op : Type :=
| Setup
| Shutdown
| Stop
| Start
| Params_set (params : Z)
| Mode_set (mode : Z)
| Limits_set (limits : Z)
| Fault_set (fault : Z)
| State_get (state : Z)
| Fault_get (fault : Z)
| Fault_clean (fault : Z)
| Ioctl (cmd arg : Z).

(** What the driver does to the outside, in order. *)
Inductive event : Type :=
| Call (c : op)
| Enter_critical
| Leave_critical
| Register_driver (path : option string) (mode : Z)
| Sem_destroy.

(** The device, the store, the [errno] of the calling thread and the
    history of events. *)
Record system : Type := {
  dev : powerled_dev_s;
  mem : store;
  errno : Z;
  log : list event
}.

(** *** The monad *)

Inductive outcome (A : Type) : Type :=
| Done (a : A) (s : system)
| Blocked
| Panic.

Definition M (A : Type) : Type := system -> outcome A.

Definition mret {A : Type} (a : A) : M A := fun s => Done A a s.

Definition bind {A B : Type} (m : M A) (k : A -> M B) : M B :=
  fun s =>
    match m s with
    | Done _ a s' => k a s'
    | Blocked _ => Blocked B
    | Panic _ => Panic B
    end.

End Model.

Arguments Done {H A} a s.
Arguments Blocked {H A}.
Arguments Panic {H A}.
Arguments mret {H A} a _.
Arguments bind {H A B} m k _.
Arguments priv {H} _.
Arguments user_params {H} _ _.
Arguments hw {H} _.
Arguments setup {H} _ _.
Arguments shutdown {H} _ _.
Arguments stop {H} _ _.
Arguments start {H} _ _.
Arguments params_set {H} _ _ _.
Arguments mode_set {H} _ _ _.
Arguments limits_set {H} _ _ _.
Arguments fault_set {H} _ _ _.
Arguments state_get {H} _ _ _.
Arguments fault_get {H} _ _ _.
Arguments fault_clean {H} _ _ _.
Arguments ioctl {H} _ _ _ _.
Arguments ops {H} _.
Arguments ocount {H} _.
Arguments closesem {H} _.
Arguments lower {H} _.
Arguments dev {H} _.
Arguments mem {H} _.
Arguments errno {H} _.
Arguments log {H} _.
Arguments Build_store {H} _ _ _.
Arguments Build_powerled_ops_s {H} _ _ _ _ _ _ _ _ _ _ _ _.
Arguments Build_powerled_dev_s {H} _ _ _ _.
Arguments Build_system {H} _ _ _ _.

Declare Scope drv_scope.
Delimit Scope drv_scope with drv.
Notation "x <- m ;; k" := (bind m (fun x => k))
  (at level 61, m at next level, right associativity) : drv_scope.
Notation "m ;; k" := (bind m (fun _ => k))
  (at level 61, right associativity) : drv_scope.

(** ** Primitive actions *)

Section Driver.

Variable H : Type.
Variable hdr : headers.

Local Open Scope drv_scope.

Definition with_dev (d : powerled_dev_s H) (s : system H) : system H :=
  Build_system d (mem s) (errno s) (log s).

Definition with_mem (m : store H) (s : system H) : system H :=
  Build_system (dev s) m (errno s) (log s).

Definition with_errno (e : Z) (s : system H) : system H :=
  Build_system (dev s) (mem s) e (log s).

Definition with_log (l : list event) (s : system H) : system H :=
  Build_system (dev s) (mem s) (errno s) l.

Definition with_ocount (n : Z) (d : powerled_dev_s H) :
    powerled_dev_s H :=
  Build_powerled_dev_s (ops d) n (closesem d) (lower d).

Definition with_closesem (c : sem_t) (d : powerled_dev_s H) :
    powerled_dev_s H :=
  Build_powerled_dev_s (ops d) (ocount d) c (lower d).

Definition with_lower (p : Z) (d : powerled_dev_s H) :
    powerled_dev_s H :=
  Build_powerled_dev_s (ops d) (ocount d) (closesem d) p.

(** Reading and writing members of [*dev]. *)
Definition get_ocount : M H Z := fun s => Done (ocount (dev s)) s.

Definition set_ocount (n : Z) : M H unit :=
  fun s => Done tt (with_dev (with_ocount n (dev s)) s).

Definition set_lower (p : Z) : M H unit :=
  fun s => Done tt (with_dev (with_lower p (dev s)) s).

Definition get_errno : M H Z := fun s => Done (errno s) s.

Definition get_powerled : M H powerled_s := fun s => Done (priv (mem s)) s.

(** [*(FAR struct powerled_params_s * )arg].  The driver reads through
    the pointer without checking it.  In the store every address holds a
    structure: what is proved about [PWRIOC_SET_PARAMS] is about the
    structure supplied, and a read that faults is outside the model. *)
Definition load_params (arg : Z) : M H powerled_params_s :=
  fun s => Done (user_params (mem s) arg) s.

Definition trace (e : event) : M H unit :=
  fun s => Done tt (with_log (log s ++ [e]) s).

(** [sem_wait(&dev->closesem)].  [wake = Some e] is a wait that fails
    with [errno = e] (a signal, a cancellation): it returns [ERROR] and
    leaves the counter alone.  Otherwise the caller takes the semaphore
    when the counter is positive, and in this sequential model waits for
    ever when it is not. *)
Definition sem_wait (wake : option Z) : M H Z :=
  fun s =>
    match wake with
    | Some e => Done (ERROR hdr) (with_errno e s)
    | None =>
        let c := closesem (dev s) in
        if 0 <? semcount c
        then
          Done (OK hdr)
            (with_dev (with_closesem
                         (Build_sem_t (semcount c - 1) (sem_live c)) (dev s))
                      s)
        else Blocked
    end.

(** [sem_post(&dev->closesem)] *)
Definition sem_post : M H unit :=
  fun s =>
    let c := closesem (dev s) in
    Done tt (with_dev (with_closesem
               (Build_sem_t (semcount c + 1) (sem_live c)) (dev s)) s).

(** [nxsem_init(&dev->closesem, 0, value)] *)
Definition nxsem_init (value : Z) : M H unit :=
  fun s =>
    Done tt (with_dev (with_closesem (Build_sem_t value true) (dev s)) s).

(** [sem_destroy(&dev->closesem)] *)
Definition sem_destroy : M H unit :=
  fun s =>
    let c := closesem (dev s) in
    Done tt
      (with_log (log s ++ [Sem_destroy])
         (with_dev (with_closesem (Build_sem_t (semcount c) false) (dev s))
                   s)).

Definition enter_critical_section : M H unit := trace Enter_critical.
Definition leave_critical_section : M H unit := trace Leave_critical.

(** The member of the table that a call goes to. *)
Definition invoke (o : powerled_ops_s H) (c : op) : store H -> Z * store H :=
  match c with
  | Setup => setup o
  | Shutdown => shutdown o
  | Stop => stop o
  | Start => start o
  | Params_set p => params_set o p
  | Mode_set m => mode_set o m
  | Limits_set l => limits_set o l
  | Fault_set f => fault_set o f
  | State_get p => state_get o p
  | Fault_get p => fault_get o p
  | Fault_clean f => fault_clean o f
  | Ioctl cmd arg => ioctl o cmd arg
  end.

(** [dev->ops->c(dev, ...)]: the call is recorded, the operation runs on
    the store, its [int] is the result. *)
Definition call (c : op) : M H Z :=
  fun s =>
    let r := invoke (ops (dev s)) c (mem s) in
    Done (fst r) (with_mem (snd r) (with_log (log s ++ [Call c]) s)).

(** [register_driver(path, &powerled_fops, mode, dev)] belongs to the file
    system H; [rd] is the status it answers with. *)
Definition register_driver (rd : Z) (path : option string) (mode : Z) : M H Z :=
  trace (Register_driver path mode) ;; mret rd.

(** [DEBUGASSERT(c)]: nothing unless assertions are compiled in. *)
Definition DEBUGASSERT (c : bool) : M H unit :=
  fun s =>
    if CONFIG_DEBUG_ASSERTIONS hdr && negb c then Panic else Done tt s.

(** [switch (x) { case k1: ... default: ... }] with labels [k1, ...]. *)
Fixpoint switch {A : Type} (x : Z) (cases : list (Z * A)) (default : A) : A :=
  match cases with
  | [] => default
  | (k, body) :: rest => if x =? k then body else switch x rest default
  end.

(** ** The driver *)

(** [powerled_open].  The local [ret] is computed on every path and the
    function ends in [return OK]. *)
Definition powerled_open (wake : option Z) : M H Z :=
  ret <- (w <- sem_wait wake ;;
          if negb (w =? OK hdr)
          then
            e <- get_errno ;;
            mret (- e)
          else
            oc <- get_ocount ;;
            let tmp := uint8 (oc + 1) in
            ret <- (if tmp =? 0
                    then mret (- EMFILE hdr)
                    else
                      if tmp =? 1
                      then
                        enter_critical_section ;;
                        ret <- call Setup ;;
                        (if ret =? OK hdr then set_ocount tmp else mret tt) ;;
                        leave_critical_section ;;
                        mret ret
                      else mret (OK hdr)) ;;
            sem_post ;;
            mret ret) ;;
  mret (OK hdr).

(** [powerled_close]; the status of [shutdown] is not looked at. *)
Definition powerled_close (wake : option Z) : M H Z :=
  w <- sem_wait wake ;;
  if negb (w =? OK hdr)
  then
    e <- get_errno ;;
    mret (- e)
  else
    oc <- get_ocount ;;
    if 1 <? oc
    then
      set_ocount (uint8 (oc - 1)) ;;
      sem_post ;;
      mret (OK hdr)
    else
      set_ocount 0 ;;
      enter_critical_section ;;
      call Shutdown ;;
      leave_critical_section ;;
      sem_post ;;
      mret (OK hdr).

(** The test of [PWRIOC_SET_PARAMS] on the caller's structure. *)
Definition params_invalid (p : powerled_params_s) : bool :=
  flt (brightness p) float_0 || fgt (brightness p) float_100 ||
  flt (frequency p) float_0 ||
  flt (duty p) float_0 || fgt (duty p) float_100.

(** [powerled_ioctl].  The debug output of [pwrerr] and [pwrinfo] changes
    neither the device nor the store and is left out. *)
Definition powerled_ioctl (cmd arg : Z) : M H Z :=
  powerled <- get_powerled ;;
  switch cmd
    [ (PWRIOC_START hdr,
        if negb (Limits.lock (limits powerled)) ||
           fle (current (limits powerled)) float_0
        then mret (- EPERM hdr)
        else
          if negb (opmode powerled =? POWERLED_OPMODE_CONTINUOUS hdr) &&
             negb (opmode powerled =? POWERLED_OPMODE_FLASH hdr)
          then mret (- EPERM hdr)
          else call Start);
      (PWRIOC_STOP hdr, call Stop);
      (PWRIOC_SET_MODE hdr, call (Mode_set (uint8 arg)));
      (PWRIOC_SET_LIMITS hdr,
        if Limits.lock (limits powerled)
        then mret (- EPERM hdr)
        else call (Limits_set arg));
      (PWRIOC_GET_STATE hdr, call (State_get arg));
      (PWRIOC_SET_FAULT hdr, call (Fault_set (uint8 arg)));
      (PWRIOC_GET_FAULT hdr, call (Fault_get arg));
      (PWRIOC_CLEAN_FAULT hdr, call (Fault_clean (uint8 arg)));
      (PWRIOC_SET_PARAMS hdr,
        if Params.lock (param powerled)
        then mret (- EPERM hdr)
        else
          params <- load_params arg ;;
          if params_invalid params
          then mret (- EPERM hdr)
          else call (Params_set arg)) ]
    (call (Ioctl cmd arg)).

(** [powerled_register].  [dev] and [dev->ops] exist and every member of
    the table is a function, so the assertions about them hold by
    construction; [path] and [lower] can be [NULL]. *)
Definition powerled_register (rd : Z) (path : option string) (lower : Z) :
    M H Z :=
  DEBUGASSERT (match path with Some _ => true | None => false end &&
               negb (lower =? 0)) ;;
  set_ocount 0 ;;
  nxsem_init 1 ;;
  set_lower lower ;;
  ret <- register_driver rd path mode_0444 ;;
  (if ret <? 0 then sem_destroy else mret tt) ;;
  mret ret.

(** ** Vocabulary of the properties *)

(** Equality of calls, arguments included. *)
Definition op_eqb (c c' : op) : bool :=
  match c, c' with
  | Setup, Setup | Shutdown, Shutdown | Stop, Stop | Start, Start => true
  | Params_set a, Params_set b | Mode_set a, Mode_set b
  | Limits_set a, Limits_set b | Fault_set a, Fault_set b
  | State_get a, State_get b | Fault_get a, Fault_get b
  | Fault_clean a, Fault_clean b => a =? b
  | Ioctl a1 a2, Ioctl b1 b2 => (a1 =? b1) && (a2 =? b2)
  | _, _ => false
  end.

Definition is_call (c : op) (e : event) : bool :=
  match e with
  | Call c' => op_eqb c c'
  | _ => false
  end.

(** How many times the call [c] of the lower half occurs in a history. *)
Definition calls (c : op) (l : list event) : nat :=
  List.length (filter (is_call c) l).

(** The guard can be taken without waiting. *)
Definition guard_free (s : system H) : Prop :=
  0 < semcount (closesem (dev s)).

(** What the open count of a session satisfies between calls: the guard is
    free and the count is 0 or 1. *)
Definition session_inv (s : system H) : Prop :=
  guard_free s /\ 0 <= ocount (dev s) <= 1.

(** [s'] is [s] with open count [n], store [m] and the events [evs] added
    to the history; the table, the guard, [lower] and [errno] are those of
    [s]. *)
Definition updates (s s' : system H) (n : Z) (m : store H)
    (evs : list event) : Prop :=
  ocount (dev s') = n /\
  ops (dev s') = ops (dev s) /\
  closesem (dev s') = closesem (dev s) /\
  lower (dev s') = lower (dev s) /\
  mem s' = m /\
  errno s' = errno s /\
  log s' = log s ++ evs.

(** The state in which a delegated call [c] leaves the system. *)
Definition after_call (c : op) (s : system H) : system H :=
  with_mem (snd (invoke (ops (dev s)) c (mem s)))
           (with_log (log s ++ [Call c]) s).

(** The conditions under which the dispatcher refuses a command. *)
Definition start_refused (p : powerled_s) : Prop :=
  Limits.lock (limits p) = false \/
  fle (current (limits p)) float_0 = true \/
  (opmode p <> POWERLED_OPMODE_CONTINUOUS hdr /\
   opmode p <> POWERLED_OPMODE_FLASH hdr).

Definition limits_refused (p : powerled_s) : Prop :=
  Limits.lock (limits p) = true.

Definition params_refused (p : powerled_s) (u : powerled_params_s) : Prop :=
  Params.lock (param p) = true \/
  flt (brightness u) float_0 = true \/ fgt (brightness u) float_100 = true \/
  flt (frequency u) float_0 = true \/
  flt (duty u) float_0 = true \/ fgt (duty u) float_100 = true.

Definition precondition_violated (s : system H) (cmd arg : Z) : Prop :=
  (cmd = PWRIOC_START hdr /\ start_refused (priv (mem s))) \/
  (cmd = PWRIOC_SET_LIMITS hdr /\ limits_refused (priv (mem s))) \/
  (cmd = PWRIOC_SET_PARAMS hdr /\
   params_refused (priv (mem s)) (user_params (mem s) arg)).

(** The same conditions read as membership, the way the specification
    words them: a value is in range when it lies in the interval, and out
    of range when it does not.  A NaN lies in no interval and is not
    above 0, so these readings differ from the comparisons of the code
    exactly at NaN. *)
Definition within_0_100 (x : float) : bool :=
  fle float_0 x && fle x float_100.

Definition not_strictly_positive (x : float) : Prop :=
  fgt x float_0 = false.

(** START: the limits are not locked, or the current is not strictly
    positive, or the mode is neither CONTINUOUS nor FLASH. *)
Definition worded_start_refusal (p : powerled_s) : Prop :=
  Limits.lock (limits p) = false \/
  not_strictly_positive (current (limits p)) \/
  (opmode p <> POWERLED_OPMODE_CONTINUOUS hdr /\
   opmode p <> POWERLED_OPMODE_FLASH hdr).

(** SET_PARAMS: the parameters are locked, or the brightness is outside
    [0,100], or the frequency is negative, or the duty is outside
    [0,100]. *)
Definition worded_params_refusal (p : powerled_s) (u : powerled_params_s) :
    Prop :=
  Params.lock (param p) = true \/
  within_0_100 (brightness u) = false \/
  flt (frequency u) float_0 = true \/
  within_0_100 (duty u) = false.

(** A violated precondition: limits not locked or unsupported mode for
    START, limits already locked for SET_LIMITS, parameters already
    locked or a value out of its range for SET_PARAMS. *)
Definition worded_violation (s : system H) (cmd arg : Z) : Prop :=
  (cmd = PWRIOC_START hdr /\
   (Limits.lock (limits (priv (mem s))) = false \/
    (opmode (priv (mem s)) <> POWERLED_OPMODE_CONTINUOUS hdr /\
     opmode (priv (mem s)) <> POWERLED_OPMODE_FLASH hdr))) \/
  (cmd = PWRIOC_SET_LIMITS hdr /\ limits_refused (priv (mem s))) \/
  (cmd = PWRIOC_SET_PARAMS hdr /\
   (Params.lock (param (priv (mem s))) = true \/
    within_0_100 (brightness (user_params (mem s) arg)) = false \/
    fle float_0 (frequency (user_params (mem s) arg)) = false \/
    within_0_100 (duty (user_params (mem s) arg)) = false)).

(** The operation each command is delegated to, as the table of the
    specification lists them (one-byte arguments are passed as bytes). *)
Definition spec_delegate (cmd arg : Z) : op :=
  switch cmd
    [ (PWRIOC_START hdr, Start);
      (PWRIOC_STOP hdr, Stop);
      (PWRIOC_SET_MODE hdr, Mode_set (uint8 arg));
      (PWRIOC_SET_LIMITS hdr, Limits_set arg);
      (PWRIOC_GET_STATE hdr, State_get arg);
      (PWRIOC_SET_FAULT hdr, Fault_set (uint8 arg));
      (PWRIOC_GET_FAULT hdr, Fault_get arg);
      (PWRIOC_CLEAN_FAULT hdr, Fault_clean (uint8 arg));
      (PWRIOC_SET_PARAMS hdr, Params_set arg) ]
    (Ioctl cmd arg).

End Driver.

Arguments with_dev {H} d s.
Arguments with_mem {H} m s.
Arguments with_errno {H} e s.
Arguments with_log {H} l s.
Arguments with_ocount {H} n d.
Arguments with_closesem {H} c d.
Arguments with_lower {H} p d.
Arguments invoke {H} o c _.
Arguments call {H} c _.
Arguments powerled_open {H} hdr wake _.
Arguments powerled_close {H} hdr wake _.
Arguments powerled_ioctl {H} hdr cmd arg _.
Arguments powerled_register {H} hdr rd path lower _.
Arguments guard_free {H} s.
Arguments session_inv {H} s.
Arguments updates {H} s s' n m evs.
Arguments after_call {H} c s.
Arguments precondition_violated {H} hdr s cmd arg.
Arguments worded_violation {H} hdr s cmd arg.

(** ** The callers

    The file system reaches the driver through [powerled_fops]: [open],
    [close] and [ioctl] are the three functions above, the other members
    are [NULL].  A client is a sequence of such requests on one
    session. *)

Section Callers.

Variable H : Type.
Variable hdr : headers.

Local Open Scope drv_scope.

(** One request on the device node; [wake] tells how the wait on the
    guard ends, as for [sem_wait]. *)
Inductive request : Type :=
| Req_open (wake : option Z)
| Req_close (wake : option Z)
| Req_ioctl (cmd arg : Z).

(** The member of [powerled_fops] that serves a request. *)
Definition serve (q : request) : M H Z :=
  match q with
  | Req_open wake => powerled_open hdr wake
  | Req_close wake => powerled_close hdr wake
  | Req_ioctl cmd arg => powerled_ioctl hdr cmd arg
  end.

(** The requests one after the other; the result is the list of the
    statuses returned. *)
Fixpoint serve_all (qs : list request) : M H (list Z) :=
  match qs with
  | [] => mret []
  | q :: rest =>
      r <- serve q ;;
      rs <- serve_all rest ;;
      mret (r :: rs)
  end.

(** The closes of a client whose wait on the guard does not fail. *)
Definition guarded_close (q : request) : bool :=
  match q with
  | Req_close None => true
  | _ => false
  end.

(** The requests that make the dispatcher itself read through the
    argument: [PWRIOC_SET_PARAMS] is the only command for which it
    does. *)
Definition reads_argument (q : request) : bool :=
  match q with
  | Req_ioctl cmd _ => cmd =? PWRIOC_SET_PARAMS hdr
  | _ => false
  end.

Definition guarded_closes (qs : list request) : nat :=
  List.length (filter guarded_close qs).

(** The calls that the dispatcher makes: all but [setup] and
    [shutdown]. *)
Definition dispatch_op (c : op) : bool :=
  match c with
  | Setup | Shutdown => false
  | _ => true
  end.

(** Reading a history with respect to the critical section.  The state is
    whether the history is inside a section; [None] is a history in which
    a section is entered twice or left without being entered, [setup] or
    [shutdown] is called outside a section, or anything else happens
    inside one. *)
Definition scan (st : option bool) (e : event) : option bool :=
  match st with
  | None => None
  | Some inside =>
      match e with
      | Enter_critical => if inside then None else Some true
      | Leave_critical => if inside then Some false else None
      | Call c =>
          if dispatch_op c
          then (if inside then None else Some false)
          else (if inside then Some true else None)
      | Register_driver _ _ | Sem_destroy =>
          if inside then None else Some false
      end
  end.

(** The history is well formed and ends outside a critical section. *)
Definition bracketed (l : list event) : bool :=
  match fold_left scan l (Some false) with
  | Some false => true
  | _ => false
  end.

(** The count of a [uint8_t]. *)
Definition ocount_in_range (s : system H) : Prop :=
  0 <= ocount (dev s) <= 255.

End Callers.

Arguments serve {H} hdr q _.
Arguments serve_all {H} hdr qs _.
Arguments ocount_in_range {H} s.

(** ** Values of floats *)

(** The exact value of a finite float as a fraction [(numerator,
    denominator)]. *)
Definition float_value (x : float) : option (Z * Z) :=
  match x with
  | S754_zero _ => Some (0, 1)
  | S754_finite s m e =>
      let n := if s then Z.neg m else Z.pos m in
      Some (if 0 <=? e then (n * 2 ^ e, 1) else (n, 2 ^ (- e)))
  | _ => None
  end.

(** A float is finite, a valid binary32 datum, and its value is the
    fraction [n / d]. *)
Definition float_is (x : float) (n d : Z) : Prop :=
  valid_binary 24 128 x = true /\ float_value x = Some (n, d).

(** ** A concrete configuration and a concrete lower half

    Used to run the driver on explicit inputs. *)

(** [EPERM = 1] and [EMFILE = 24] as in <errno.h>; nine distinct command
    numbers; the two modes numbered 1 and 2; assertions compiled in. *)
Definition demo_headers : headers :=
  {| OK := 0;
     ERROR := -1;
     EPERM := 1;
     EMFILE := 24;
     PWRIOC_START := 9473;
     PWRIOC_STOP := 9474;
     PWRIOC_SET_MODE := 9475;
     PWRIOC_SET_LIMITS := 9476;
     PWRIOC_GET_STATE := 9477;
     PWRIOC_SET_FAULT := 9478;
     PWRIOC_GET_FAULT := 9479;
     PWRIOC_CLEAN_FAULT := 9480;
     PWRIOC_SET_PARAMS := 9481;
     POWERLED_OPMODE_CONTINUOUS := 1;
     POWERLED_OPMODE_FLASH := 2;
     CONFIG_DEBUG_ASSERTIONS := true;
     ERROR_not_OK := ltac:(discriminate);
     PWRIOC_distinct :=
       ltac:(repeat (constructor; [simpl; intuition discriminate | ]);
             constructor) |}.

(** The binary32 values 1, 50, 101 and 1000, and the least binary32
    value above 100. *)
Definition float_1 : float := S754_finite false 8388608 (-23).
Definition float_50 : float := S754_finite false 13107200 (-18).
Definition float_101 : float := S754_finite false 13238272 (-17).
Definition float_1000 : float := S754_finite false 16384000 (-14).
Definition float_100_succ : float := S754_finite false 13107201 (-17).

(** A lower half over one hardware word (1 while the LED driver is set
    up).  [setup] answers [setup_status]; [limits_set] answers
    [limits_status]; the generic [ioctl] answers [cmd + arg]; the others
    succeed. *)
Definition demo_ops (setup_status limits_status : Z) : powerled_ops_s Z :=
  {| setup := fun st =>
       (setup_status,
        if setup_status =? OK demo_headers
        then Build_store (priv st) (user_params st) 1
        else st);
     shutdown := fun st =>
       (OK demo_headers, Build_store (priv st) (user_params st) 0);
     stop := fun st => (OK demo_headers, st);
     start := fun st => (OK demo_headers, st);
     params_set := fun _ st => (OK demo_headers, st);
     mode_set := fun _ st => (OK demo_headers, st);
     limits_set := fun _ st => (limits_status, st);
     fault_set := fun _ st => (OK demo_headers, st);
     state_get := fun _ st => (OK demo_headers, st);
     fault_get := fun _ st => (OK demo_headers, st);
     fault_clean := fun _ st => (OK demo_headers, st);
     ioctl := fun cmd arg st => (cmd + arg, st) |}.

(** A control block with the given mode and locks, limit current 1. *)
Definition demo_powerled (mode : Z) (limits_lock params_lock : bool) :
    powerled_s :=
  {| opmode := mode;
     limits := {| Limits.lock := limits_lock; current := float_1 |};
     param := {| Params.lock := params_lock; brightness := float_0;
                 frequency := float_0; duty := float_0 |} |}.

(** The caller's parameter structure, the same at every address. *)
Definition demo_params (b f d : float) : Z -> powerled_params_s :=
  fun _ =>
    {| Params.lock := false; brightness := b; frequency := f; duty := d |}.

(** A session with open count [n] and a free guard. *)
Definition demo_system (o : powerled_ops_s Z) (n : Z) (p : powerled_s)
    (u : Z -> powerled_params_s) : system Z :=
  {| dev := {| ops := o; ocount := n;
               closesem := {| semcount := 1; sem_live := true |};
               lower := 4096 |};
     mem := {| priv := p; user_params := u; hw := 0 |};
     errno := 0;
     log := [] |}.

(** The session as the board code hands it to [powerled_register]: the
    table and [priv] are set, the rest is whatever the memory held. *)
Definition demo_unregistered : system Z :=
  {| dev := {| ops := demo_ops (OK demo_headers) (OK demo_headers);
               ocount := 77;
               closesem := {| semcount := -3; sem_live := false |};
               lower := 0 |};
     mem := {| priv := demo_powerled 0 false false;
               user_params := demo_params float_0 float_0 float_0; hw := 0 |};
     errno := 0;
     log := [] |}.

(** Sessions used below: fresh (count 0) over a lower half whose [setup]
    succeeds, fresh over one whose [setup] answers -5, one with the
    count at 255, and open sessions in the four lock states, the last one
    over a lower half whose [limits_set] answers [ERROR]. *)
Definition demo_fresh : system Z :=
  demo_system (demo_ops (OK demo_headers) (OK demo_headers)) 0
    (demo_powerled 1 true false)
    (demo_params float_50 float_1000 float_50).

Definition demo_fresh_bad_setup : system Z :=
  demo_system (demo_ops (-5) (OK demo_headers)) 0
    (demo_powerled 1 true false)
    (demo_params float_50 float_1000 float_50).

Definition demo_full : system Z :=
  demo_system (demo_ops (OK demo_headers) (OK demo_headers)) 255
    (demo_powerled 1 true false)
    (demo_params float_50 float_1000 float_50).

Definition demo_armed : system Z :=
  demo_system (demo_ops (OK demo_headers) (OK demo_headers)) 1
    (demo_powerled 1 true false)
    (demo_params float_50 float_1000 float_50).

Definition demo_unarmed : system Z :=
  demo_system (demo_ops (OK demo_headers) (OK demo_headers)) 1
    (demo_powerled 1 false false)
    (demo_params float_50 float_1000 float_50).

Definition demo_too_bright : system Z :=
  demo_system (demo_ops (OK demo_headers) (OK demo_headers)) 1
    (demo_powerled 1 true false)
    (demo_params float_101 float_1000 float_50).

Definition demo_unarmed_refusing : system Z :=
  demo_system (demo_ops (OK demo_headers) (ERROR demo_headers)) 1
    (demo_powerled 1 false false)
    (demo_params float_50 float_1000 float_50).

(** A client: open, start, a failed close, stop, close, close. *)
Definition demo_client : list request :=
  [Req_open None;
   Req_ioctl (PWRIOC_START demo_headers) 0;
   Req_close (Some 4);
   Req_ioctl (PWRIOC_STOP demo_headers) 0;
   Req_close None;
   Req_close None].

(** A session whose guard is taken. *)
Definition demo_guard_taken : system Z :=
  {| dev := {| ops := demo_ops (OK demo_headers) (OK demo_headers);
               ocount := 1;
               closesem := {| semcount := 0; sem_live := true |};
               lower := 4096 |};
     mem := {| priv := demo_powerled 1 true false;
               user_params := demo_params float_50 float_1000 float_50;
               hw := 1 |};
     errno := 0;
     log := [] |}.

(** A session with three openers, as a working count would leave it. *)
Definition demo_three_openers : system Z :=
  demo_system (demo_ops (OK demo_headers) (OK demo_headers)) 3
    (demo_powerled 1 true false)
    (demo_params float_50 float_1000 float_50).

(** Parameter structures: in range, and with a NaN brightness and an
    infinite frequency. *)
Definition demo_params_ok : powerled_params_s :=
  {| Params.lock := false; brightness := float_50;
     frequency := float_1000; duty := float_100 |}.

Definition demo_params_nan : powerled_params_s :=
  {| Params.lock := false; brightness := S754_nan;
     frequency := S754_infinity false; duty := float_100 |}.

(** Sessions whose caller supplies a NaN brightness, a NaN duty. *)
Definition demo_nan_brightness : system Z :=
  demo_system (demo_ops (OK demo_headers) (OK demo_headers)) 1
    (demo_powerled 1 true false)
    (demo_params S754_nan float_1000 float_50).

Definition demo_nan_duty : system Z :=
  demo_system (demo_ops (OK demo_headers) (OK demo_headers)) 1
    (demo_powerled 1 true false)
    (demo_params float_50 float_1000 S754_nan).

(** A session whose limit current is NaN. *)
Definition demo_nan_current : system Z :=
  demo_system (demo_ops (OK demo_headers) (OK demo_headers)) 1
    {| opmode := 2;
       limits := {| Limits.lock := true; current := S754_nan |};
       param := {| Params.lock := false; brightness := float_0;
                   frequency := float_0; duty := float_0 |} |}
    (demo_params float_50 float_1000 float_50).

(** * Properties *)

Section Properties.

Variable H : Type.
Variable hdr : headers.

(** ** The [switch] *)

Lemma switch_hit (A : Type) (x : Z) (cases : list (Z * A)) (d body : A) :
  NoDup (map fst cases) -> In (x, body) cases -> switch x cases d = body.
Proof.
  induction cases as [| [k b] rest IH]; simpl; intros ND Hin.
  - contradiction.
  - inversion ND as [| ? ? Hnotin ND']; subst.
    destruct Hin as [Heq | Hin].
    + inversion Heq; subst. now rewrite Z.eqb_refl.
    + destruct (Z.eqb_spec x k) as [-> | _].
      * exfalso. apply Hnotin. change k with (fst (k, body)). now apply in_map.
      * now apply IH.
Qed.

Lemma switch_miss (A : Type) (x : Z) (cases : list (Z * A)) (d : A) :
  ~ In x (map fst cases) -> switch x cases d = d.
Proof.
  induction cases as [| [k b] rest IH]; simpl; intros Hnotin.
  - reflexivity.
  - destruct (Z.eqb_spec x k) as [-> | _].
    + exfalso. apply Hnotin. now left.
    + apply IH. intros Hin. apply Hnotin. now right.
Qed.

(** ** Counting calls *)

Lemma calls_app (c : op) (l l' : list event) :
  calls c (l ++ l') = (calls c l + calls c l')%nat.
Proof. unfold calls. now rewrite filter_app, length_app. Qed.

(** ** One step of the life cycle *)

Ltac run :=
  unfold powerled_open, powerled_close, powerled_register, bind, sem_wait,
    sem_post, get_ocount, set_ocount, get_errno, enter_critical_section,
    leave_critical_section, trace, call, mret, guard_free in *;
  cbn [dev mem errno log ocount closesem ops lower semcount sem_live
       with_dev with_mem with_errno with_log with_ocount with_closesem
       with_lower fst snd negb] in *.

Lemma ERROR_eqb_OK : (ERROR hdr =? OK hdr) = false.
Proof. apply Z.eqb_neq, ERROR_not_OK. Qed.

Lemma sem_round_trip (c : sem_t) :
  {| semcount := semcount c - 1 + 1; sem_live := sem_live c |} = c.
Proof. destruct c as [n l]; simpl. f_equal. lia. Qed.

Lemma uint8_succ_nonfirst (n : Z) :
  0 < n <= 255 -> (uint8 (n + 1) =? 1) = false.
Proof.
  intros Hn. unfold uint8. apply Z.eqb_neq.
  destruct (Z.eq_dec n 255) as [-> | Hne].
  - discriminate.
  - rewrite Z.mod_small by lia. lia.
Qed.

(** A failed wait: [powerled_open] answers [OK], [powerled_close] answers
    [-errno]; nothing but [errno] changes. *)
Lemma open_wait_failed (e : Z) (s : system H) :
  powerled_open hdr (Some e) s = Done (OK hdr) (with_errno e s).
Proof. run. now rewrite ERROR_eqb_OK. Qed.

Lemma close_wait_failed (e : Z) (s : system H) :
  powerled_close hdr (Some e) s = Done (- e) (with_errno e s).
Proof. run. now rewrite ERROR_eqb_OK. Qed.

(** The first open runs [setup] in the critical section and stores the
    count 1 when [setup] answers [OK]. *)
Lemma open_first (s : system H) :
  ocount (dev s) = 0 -> guard_free s ->
  exists s',
    powerled_open hdr None s = Done (OK hdr) s' /\
    updates s s'
      (if fst (setup (ops (dev s)) (mem s)) =? OK hdr then 1 else 0)
      (snd (setup (ops (dev s)) (mem s)))
      [Enter_critical; Call Setup; Leave_critical].
Proof.
  intros Hoc Hfree. run.
  apply Z.ltb_lt in Hfree. rewrite Hfree, Z.eqb_refl. cbn. rewrite Hoc. cbn.
  unfold invoke.
  destruct (setup (ops (dev s)) (mem s)) as [r m] eqn:Hsetup. cbn [fst snd].
  destruct (r =? OK hdr); cbn;
    (eexists; split; [reflexivity | ]);
    unfold updates; cbn; rewrite sem_round_trip, <- !app_assoc;
    repeat split; auto.
Qed.

(** An open that is not the first one changes nothing: neither the
    branch for [tmp == 0] nor the one for [tmp > 1] stores [tmp]. *)
Lemma open_nonfirst (s : system H) :
  0 < ocount (dev s) <= 255 -> guard_free s ->
  exists s',
    powerled_open hdr None s = Done (OK hdr) s' /\
    updates s s' (ocount (dev s)) (mem s) [].
Proof.
  intros Hoc Hfree. run.
  apply Z.ltb_lt in Hfree. rewrite Hfree, Z.eqb_refl. cbn.
  rewrite (uint8_succ_nonfirst _ Hoc).
  destruct (uint8 (ocount (dev s) + 1) =? 0); cbn;
    (eexists; split; [reflexivity | ]);
    unfold updates; cbn; rewrite sem_round_trip, app_nil_r;
    repeat split; auto.
Qed.

(** A close with a count of 0 or 1 sets the count to 0 and runs
    [shutdown] in the critical section. *)
Lemma close_last (s : system H) :
  ocount (dev s) <= 1 -> guard_free s ->
  exists s',
    powerled_close hdr None s = Done (OK hdr) s' /\
    updates s s' 0
      (snd (shutdown (ops (dev s)) (mem s)))
      [Enter_critical; Call Shutdown; Leave_critical].
Proof.
  intros Hoc Hfree. run.
  apply Z.ltb_lt in Hfree. rewrite Hfree, Z.eqb_refl. cbn.
  assert (Hlt : (1 <? ocount (dev s)) = false) by (apply Z.ltb_ge; lia).
  rewrite Hlt. cbn. unfold invoke.
  eexists; split; [reflexivity | ].
  unfold updates; cbn; rewrite sem_round_trip, <- !app_assoc.
  repeat split; auto.
Qed.

(** A close with a count above 1 decrements it. *)
Lemma close_nonlast (s : system H) :
  1 < ocount (dev s) <= 255 -> guard_free s ->
  exists s',
    powerled_close hdr None s = Done (OK hdr) s' /\
    updates s s' (ocount (dev s) - 1) (mem s) [].
Proof.
  intros Hoc Hfree. run.
  apply Z.ltb_lt in Hfree. rewrite Hfree, Z.eqb_refl. cbn.
  assert (Hlt : (1 <? ocount (dev s)) = true) by (apply Z.ltb_lt; lia).
  rewrite Hlt. cbn.
  eexists; split; [reflexivity | ].
  unfold updates; cbn; rewrite sem_round_trip, app_nil_r.
  unfold uint8. rewrite Z.mod_small by lia.
  repeat split; auto.
Qed.

Lemma updates_guard_free (s s' : system H) n m evs :
  updates s s' n m evs -> guard_free s -> guard_free s'.
Proof.
  unfold updates, guard_free. intros (_ & _ & Hsem & _) Hfree.
  now rewrite Hsem.
Qed.

(** Through open and close the count never leaves {0, 1}: the branch for
    [tmp == 0] of [powerled_open] and the decrement of [powerled_close]
    are not reached from a registered session. *)
Lemma open_preserves_inv (wake : option Z) (s : system H) :
  session_inv s ->
  exists s', powerled_open hdr wake s = Done (OK hdr) s' /\ session_inv s'.
Proof.
  intros [Hfree Hoc]. destruct wake as [e | ].
  - exists (with_errno e s). split; [apply open_wait_failed | ].
    split; assumption.
  - destruct (Z.eq_dec (ocount (dev s)) 0) as [Hz | Hnz].
    + destruct (open_first s Hz Hfree) as (s' & E & U).
      exists s'. split; [exact E | ].
      split; [exact (updates_guard_free _ _ _ _ _ U Hfree) | ].
      destruct U as (O & _). rewrite O.
      destruct (fst (setup (ops (dev s)) (mem s)) =? OK hdr); lia.
    + destruct (open_nonfirst s) as (s' & E & U); [lia | assumption | ].
      exists s'. split; [exact E | ].
      split; [exact (updates_guard_free _ _ _ _ _ U Hfree) | ].
      destruct U as (O & _). rewrite O. exact Hoc.
Qed.

Lemma close_preserves_inv (wake : option Z) (s : system H) :
  session_inv s ->
  exists r s', powerled_close hdr wake s = Done r s' /\ session_inv s'.
Proof.
  intros [Hfree Hoc]. destruct wake as [e | ].
  - exists (- e), (with_errno e s). split; [apply close_wait_failed | ].
    split; assumption.
  - destruct (close_last s) as (s' & E & U); [lia | assumption | ].
    exists (OK hdr), s'. split; [exact E | ].
    split; [exact (updates_guard_free _ _ _ _ _ U Hfree) | ].
    destruct U as (O & _). rewrite O. lia.
Qed.

(** ** Open and close *)

(** C1.  On a fresh session (count 0, guard free) whose [setup] succeeds,
    the sequence open, open, close, close does not behave as a reference
    count would: the first open calls [setup] once and stores the count 1,
    the second open leaves the count at 1 instead of 2, so the first close
    already takes the last-closer branch and calls [shutdown], and the
    second close calls [shutdown] a second time.  [setup] runs once,
    [shutdown] twice. *)
Theorem open_open_close_close_shutdown_twice (s : system H) :
  ocount (dev s) = 0 -> guard_free s ->
  fst (setup (ops (dev s)) (mem s)) = OK hdr ->
  exists s1 s2 s3 s4,
    powerled_open hdr None s = Done (OK hdr) s1 /\
    ocount (dev s1) = 1 /\
    calls Setup (log s1) = (calls Setup (log s) + 1)%nat /\
    powerled_open hdr None s1 = Done (OK hdr) s2 /\
    ocount (dev s2) = 1 /\
    log s2 = log s1 /\
    powerled_close hdr None s2 = Done (OK hdr) s3 /\
    ocount (dev s3) = 0 /\
    calls Shutdown (log s3) = (calls Shutdown (log s) + 1)%nat /\
    powerled_close hdr None s3 = Done (OK hdr) s4 /\
    ocount (dev s4) = 0 /\
    calls Shutdown (log s4) = (calls Shutdown (log s) + 2)%nat /\
    calls Setup (log s4) = (calls Setup (log s) + 1)%nat.
Proof.
  intros Hoc Hfree Hsetup.
  destruct (open_first s Hoc Hfree) as (s1 & E1 & U1).
  rewrite Hsetup, Z.eqb_refl in U1.
  pose proof (updates_guard_free _ _ _ _ _ U1 Hfree) as F1.
  destruct U1 as (O1 & _ & _ & _ & _ & _ & L1).
  destruct (open_nonfirst s1) as (s2 & E2 & U2); [lia | assumption | ].
  pose proof (updates_guard_free _ _ _ _ _ U2 F1) as F2.
  destruct U2 as (O2 & _ & _ & _ & _ & _ & L2).
  rewrite app_nil_r in L2. rewrite O1 in O2.
  destruct (close_last s2) as (s3 & E3 & U3); [lia | assumption | ].
  pose proof (updates_guard_free _ _ _ _ _ U3 F2) as F3.
  destruct U3 as (O3 & _ & _ & _ & _ & _ & L3).
  destruct (close_last s3) as (s4 & E4 & U4); [lia | assumption | ].
  destruct U4 as (O4 & _ & _ & _ & _ & _ & L4).
  assert (N1 : calls Setup (log s1) = (calls Setup (log s) + 1)%nat)
    by (rewrite L1, calls_app; reflexivity).
  assert (N3 : calls Shutdown (log s3) = (calls Shutdown (log s) + 1)%nat)
    by (rewrite L3, L2, L1, !calls_app; unfold calls; cbn; lia).
  assert (N4 : calls Shutdown (log s4) = (calls Shutdown (log s) + 2)%nat)
    by (rewrite L4, L3, L2, L1, !calls_app; unfold calls; cbn; lia).
  assert (N5 : calls Setup (log s4) = (calls Setup (log s) + 1)%nat)
    by (rewrite L4, L3, L2, L1, !calls_app; unfold calls; cbn; lia).
  exists s1, s2, s3, s4.
  repeat (split; [assumption | ]). assumption.
Qed.

(** C2.  In the two failure cases of open, a wait on the guard that fails
    and an open count of 255 whose increment wraps to 0, [powerled_open]
    assigns the error to [ret] and then answers [OK]: the caller is told
    that the open succeeded.  The count, the store and the history are
    unchanged. *)
Theorem open_failure_reported_as_OK (wake : option Z) (s : system H) :
  wake <> None \/ (ocount (dev s) = 255 /\ guard_free s) ->
  exists s',
    powerled_open hdr wake s = Done (OK hdr) s' /\
    ocount (dev s') = ocount (dev s) /\
    mem s' = mem s /\
    log s' = log s.
Proof.
  intros [Hwake | [Hoc Hfree]].
  - destruct wake as [e | ]; [ | congruence].
    exists (with_errno e s). rewrite open_wait_failed. auto.
  - destruct wake as [e | ].
    + exists (with_errno e s). rewrite open_wait_failed. auto.
    + destruct (open_nonfirst s) as (s' & E & U); [lia | assumption | ].
      destruct U as (O & _ & _ & _ & Hm & _ & L).
      rewrite app_nil_r in L. exists s'. auto.
Qed.

(** C3.  On a first open (count 0, guard taken without failure) whose
    [setup] answers a status other than [OK], the count stays 0 and
    [powerled_open] answers [OK]; [setup] was called once, inside the
    critical section, and the guard is free again. *)
Theorem open_setup_failure_keeps_count_and_reports_OK (s : system H) :
  ocount (dev s) = 0 -> guard_free s ->
  fst (setup (ops (dev s)) (mem s)) <> OK hdr ->
  exists s',
    powerled_open hdr None s = Done (OK hdr) s' /\
    ocount (dev s') = 0 /\
    closesem (dev s') = closesem (dev s) /\
    mem s' = snd (setup (ops (dev s)) (mem s)) /\
    log s' = log s ++ [Enter_critical; Call Setup; Leave_critical].
Proof.
  intros Hoc Hfree Hsetup.
  destruct (open_first s Hoc Hfree) as (s' & E & U).
  apply Z.eqb_neq in Hsetup. rewrite Hsetup in U.
  destruct U as (O & _ & Hsem & _ & Hm & _ & L).
  exists s'. auto.
Qed.

(** C10.  A close made while the count is 0 (the guard taken without
    failure) takes the last-closer branch: the count is stored as 0 and
    [shutdown] is called once, inside the critical section.  The count is
    0 again afterwards, so a further close does the same: [shutdown] runs
    twice and no [setup] runs in between. *)
Theorem close_at_zero_runs_shutdown (s : system H) :
  ocount (dev s) = 0 -> guard_free s ->
  exists s' s'',
    powerled_close hdr None s = Done (OK hdr) s' /\
    ocount (dev s') = 0 /\
    closesem (dev s') = closesem (dev s) /\
    mem s' = snd (shutdown (ops (dev s)) (mem s)) /\
    log s' = log s ++ [Enter_critical; Call Shutdown; Leave_critical] /\
    powerled_close hdr None s' = Done (OK hdr) s'' /\
    calls Shutdown (log s'') = (calls Shutdown (log s) + 2)%nat /\
    calls Setup (log s'') = calls Setup (log s).
Proof.
  intros Hoc Hfree.
  destruct (close_last s) as (s' & E & U); [lia | assumption | ].
  pose proof (updates_guard_free _ _ _ _ _ U Hfree) as F.
  destruct U as (O & _ & Hsem & _ & Hm & _ & L).
  destruct (close_last s') as (s'' & E' & U'); [lia | assumption | ].
  destruct U' as (_ & _ & _ & _ & _ & _ & L').
  exists s', s''. repeat (split; [assumption | ]).
  rewrite L', L, !calls_app. unfold calls. cbn. split; lia.
Qed.

(** ** The command dispatcher *)

Ltac pick_case :=
  first [ exact (PWRIOC_distinct hdr)
        | simpl; repeat (first [left; reflexivity | right]) ].

Ltac ioctl_case :=
  unfold powerled_ioctl, spec_delegate, bind, get_powerled, load_params, mret;
  erewrite switch_hit by pick_case.

Lemma call_eq (c : op) (s : system H) :
  call c s = Done (fst (invoke (ops (dev s)) c (mem s))) (after_call c s).
Proof. reflexivity. Qed.

Lemma start_refused_dec (p : powerled_s) :
  start_refused hdr p <->
  (negb (Limits.lock (limits p)) || fle (current (limits p)) float_0) ||
  (negb (opmode p =? POWERLED_OPMODE_CONTINUOUS hdr) &&
   negb (opmode p =? POWERLED_OPMODE_FLASH hdr)) = true.
Proof.
  unfold start_refused.
  rewrite !orb_true_iff, andb_true_iff, !negb_true_iff, !Z.eqb_neq.
  tauto.
Qed.

Lemma params_refused_dec (p : powerled_s) (u : powerled_params_s) :
  params_refused p u <-> Params.lock (param p) || params_invalid u = true.
Proof.
  unfold params_refused, params_invalid.
  rewrite !orb_true_iff. tauto.
Qed.

Lemma ioctl_START (arg : Z) (s : system H) :
  powerled_ioctl hdr (PWRIOC_START hdr) arg s =
  if (negb (Limits.lock (limits (priv (mem s)))) ||
      fle (current (limits (priv (mem s)))) float_0) ||
     (negb (opmode (priv (mem s)) =? POWERLED_OPMODE_CONTINUOUS hdr) &&
      negb (opmode (priv (mem s)) =? POWERLED_OPMODE_FLASH hdr))
  then Done (- EPERM hdr) s
  else call Start s.
Proof.
  ioctl_case.
  destruct (negb (Limits.lock (limits (priv (mem s)))) ||
            fle (current (limits (priv (mem s)))) float_0); cbn;
    [reflexivity | ].
  destruct (negb (opmode (priv (mem s)) =? POWERLED_OPMODE_CONTINUOUS hdr) &&
            negb (opmode (priv (mem s)) =? POWERLED_OPMODE_FLASH hdr));
    reflexivity.
Qed.

Lemma ioctl_SET_LIMITS (arg : Z) (s : system H) :
  powerled_ioctl hdr (PWRIOC_SET_LIMITS hdr) arg s =
  if Limits.lock (limits (priv (mem s)))
  then Done (- EPERM hdr) s
  else call (Limits_set arg) s.
Proof.
  ioctl_case. destruct (Limits.lock (limits (priv (mem s)))); reflexivity.
Qed.

Lemma ioctl_SET_PARAMS (arg : Z) (s : system H) :
  powerled_ioctl hdr (PWRIOC_SET_PARAMS hdr) arg s =
  if Params.lock (param (priv (mem s))) ||
     params_invalid (user_params (mem s) arg)
  then Done (- EPERM hdr) s
  else call (Params_set arg) s.
Proof.
  ioctl_case.
  destruct (Params.lock (param (priv (mem s)))); cbn; [reflexivity | ].
  destruct (params_invalid (user_params (mem s) arg)); reflexivity.
Qed.

Lemma ioctl_unrecognized (cmd arg : Z) (s : system H) :
  ~ In cmd (recognized hdr) ->
  powerled_ioctl hdr cmd arg s = call (Ioctl cmd arg) s.
Proof.
  intros Hnot. unfold powerled_ioctl, bind, get_powerled.
  now rewrite switch_miss.
Qed.

(** Whatever the command, the dispatcher either refuses it with [-EPERM]
    and leaves the system as it is, or makes the one call that the table
    of the specification names and answers with the status of that
    call. *)
Lemma ioctl_refuses_or_delegates (cmd arg : Z) (s : system H) :
  (precondition_violated hdr s cmd arg /\
   powerled_ioctl hdr cmd arg s = Done (- EPERM hdr) s) \/
  (~ precondition_violated hdr s cmd arg /\
   powerled_ioctl hdr cmd arg s = call (spec_delegate hdr cmd arg) s).
Proof.
  pose proof (PWRIOC_distinct hdr) as ND.
  destruct (in_dec Z.eq_dec cmd (recognized hdr)) as [Hin | Hnot].
  - unfold recognized in Hin. simpl in Hin.
    repeat match type of ND with
           | NoDup (_ :: _) =>
               let x := fresh "x" in let l := fresh "l" in
               let N := fresh "N" in let ND' := fresh "ND" in
               inversion ND as [| x l N ND']; subst x l; clear ND;
               rename ND' into ND; simpl in N
           end.
    unfold precondition_violated.
    destruct Hin as [E | [E | [E | [E | [E | [E | [E | [E | [E | []]]]]]]]]];
      subst cmd.
    + rewrite ioctl_START.
      destruct (_ || _ || _) eqn:B.
      * left. split; [ | reflexivity]. left. split; [reflexivity | ].
        now apply start_refused_dec.
      * right. split.
        -- intros [[_ R] | [[E _] | [E _]]]; [ | intuition congruence ..].
           apply start_refused_dec in R. congruence.
        -- unfold spec_delegate. erewrite switch_hit by pick_case. reflexivity.
    + right. split; [intuition congruence | ].
      ioctl_case. erewrite switch_hit by pick_case. reflexivity.
    + right. split; [intuition congruence | ].
      ioctl_case. erewrite switch_hit by pick_case. reflexivity.
    + rewrite ioctl_SET_LIMITS. unfold limits_refused.
      destruct (Limits.lock (limits (priv (mem s)))) eqn:B.
      * left. split; [ | reflexivity]. right. left. now split.
      * right. split; [intuition congruence | ].
        unfold spec_delegate. erewrite switch_hit by pick_case. reflexivity.
    + right. split; [intuition congruence | ].
      ioctl_case. erewrite switch_hit by pick_case. reflexivity.
    + right. split; [intuition congruence | ].
      ioctl_case. erewrite switch_hit by pick_case. reflexivity.
    + right. split; [intuition congruence | ].
      ioctl_case. erewrite switch_hit by pick_case. reflexivity.
    + right. split; [intuition congruence | ].
      ioctl_case. erewrite switch_hit by pick_case. reflexivity.
    + rewrite ioctl_SET_PARAMS.
      destruct (_ || _) eqn:B.
      * left. split; [ | reflexivity]. right. right. split; [reflexivity | ].
        now apply params_refused_dec.
      * right. split.
        -- intros [[E _] | [[E _] | [_ R]]]; [intuition congruence .. | ].
           apply params_refused_dec in R. congruence.
        -- unfold spec_delegate. erewrite switch_hit by pick_case. reflexivity.
  - right. split.
    + unfold precondition_violated, recognized in *. simpl in Hnot.
      intuition congruence.
    + rewrite ioctl_unrecognized by assumption.
      unfold spec_delegate. now rewrite switch_miss.
Qed.

(** The dispatcher always returns, and never writes to [*dev]. *)
Lemma ioctl_preserves_dev (cmd arg : Z) (s : system H) :
  exists r s', powerled_ioctl hdr cmd arg s = Done r s' /\ dev s' = dev s.
Proof.
  destruct (ioctl_refuses_or_delegates cmd arg s) as [[_ E] | [_ E]];
    rewrite E; [ | rewrite call_eq]; eauto.
Qed.

Lemma snoc_neq (A : Type) (l : list A) (x : A) : l ++ [x] <> l.
Proof.
  intros E. apply (f_equal (@List.length A)) in E.
  rewrite length_app in E. simpl in E. lia.
Qed.

(** C4 (amended).  [PWRIOC_START] is refused with [-EPERM], the system
    untouched and the lower half not called, when [limits.lock] is false,
    or the comparison [limits.current <= 0] holds, or the mode is neither
    CONTINUOUS nor FLASH.  Otherwise, that is when the limits are locked,
    [limits.current <= 0] is false (as it is for a current above 0, and
    for a NaN) and the mode is one of the two, the dispatcher calls
    [ops->start] and answers with its status.  One of the two cases always
    applies. *)
Theorem START_refused_or_delegated (arg : Z) (s : system H) :
  (start_refused hdr (priv (mem s)) ->
   powerled_ioctl hdr (PWRIOC_START hdr) arg s = Done (- EPERM hdr) s) /\
  (Limits.lock (limits (priv (mem s))) = true ->
   fle (current (limits (priv (mem s)))) float_0 = false ->
   opmode (priv (mem s)) = POWERLED_OPMODE_CONTINUOUS hdr \/
   opmode (priv (mem s)) = POWERLED_OPMODE_FLASH hdr ->
   powerled_ioctl hdr (PWRIOC_START hdr) arg s =
   Done (fst (start (ops (dev s)) (mem s))) (after_call Start s)) /\
  (start_refused hdr (priv (mem s)) \/
   (Limits.lock (limits (priv (mem s))) = true /\
    fle (current (limits (priv (mem s)))) float_0 = false /\
    (opmode (priv (mem s)) = POWERLED_OPMODE_CONTINUOUS hdr \/
     opmode (priv (mem s)) = POWERLED_OPMODE_FLASH hdr))).
Proof.
  rewrite ioctl_START, call_eq. split; [ | split].
  - intros R. apply start_refused_dec in R. now rewrite R.
  - intros Hl Hc Hm. rewrite Hl, Hc. cbn.
    destruct Hm as [-> | ->]; rewrite Z.eqb_refl; cbn;
      rewrite ?andb_false_r; reflexivity.
  - unfold start_refused.
    destruct (Limits.lock (limits (priv (mem s)))); [ | now left; left].
    destruct (fle (current (limits (priv (mem s)))) float_0);
      [now left; right; left | ].
    destruct (Z.eq_dec (opmode (priv (mem s)))
                (POWERLED_OPMODE_CONTINUOUS hdr));
      [now right; repeat split; auto | ].
    destruct (Z.eq_dec (opmode (priv (mem s))) (POWERLED_OPMODE_FLASH hdr));
      [now right; repeat split; auto | ].
    left. right. right. now split.
Qed.


(** C6 (amended).  [PWRIOC_SET_LIMITS] is refused by the dispatcher, with
    [-EPERM], the system untouched and the lower half not called, exactly
    when [limits.lock] is true at the time of the call.  When it is false
    the dispatcher calls [ops->limits_set] with the argument and answers
    with its status, whatever that status is. *)
Theorem SET_LIMITS_refused_iff_locked (arg : Z) (s : system H) :
  (Limits.lock (limits (priv (mem s))) = true ->
   powerled_ioctl hdr (PWRIOC_SET_LIMITS hdr) arg s = Done (- EPERM hdr) s) /\
  (Limits.lock (limits (priv (mem s))) = false ->
   powerled_ioctl hdr (PWRIOC_SET_LIMITS hdr) arg s =
   Done (fst (limits_set (ops (dev s)) arg (mem s)))
        (after_call (Limits_set arg) s)) /\
  (forall r s',
     powerled_ioctl hdr (PWRIOC_SET_LIMITS hdr) arg s = Done r s' ->
     (log s' = log s <-> Limits.lock (limits (priv (mem s))) = true)).
Proof.
  rewrite ioctl_SET_LIMITS, call_eq.
  destruct (Limits.lock (limits (priv (mem s)))).
  - split; [reflexivity | split; [discriminate | ]].
    intros r s' D. inversion D; subst. tauto.
  - split; [discriminate | split; [reflexivity | ]].
    intros r s' D. inversion D; subst. cbn.
    split; [intros L; now apply snoc_neq in L | discriminate].
Qed.

(** C7.  A command that is none of the nine recognized ones is handed,
    with the command number and the argument as received, to the generic
    [ops->ioctl]; the answer is the status of that call. *)
Theorem unrecognized_command_forwarded (cmd arg : Z) (s : system H) :
  ~ In cmd (recognized hdr) ->
  powerled_ioctl hdr cmd arg s =
  Done (fst (ioctl (ops (dev s)) cmd arg (mem s)))
       (after_call (Ioctl cmd arg) s).
Proof.
  intros Hnot. now rewrite ioctl_unrecognized, call_eq.
Qed.


(** ** Registration *)

(** C9.  A call of [powerled_register] that passes its assertion (a path
    and a lower-half handle that are not [NULL], or assertions compiled
    out) returns the status of [register_driver], having stored the count
    0, initialised the guard with the count 1 and stored the handle in
    [dev->lower].  When that status is negative the guard has been
    destroyed, after the attempt to register, by the time the status is
    returned; otherwise the guard is left initialised. *)
Theorem register_initialises_and_cleans_up
    (rd : Z) (path : option string) (handle : Z) (s : system H) :
  CONFIG_DEBUG_ASSERTIONS hdr = false \/ (path <> None /\ handle <> 0) ->
  exists s',
    powerled_register hdr rd path handle s = Done rd s' /\
    ocount (dev s') = 0 /\
    semcount (closesem (dev s')) = 1 /\
    lower (dev s') = handle /\
    ops (dev s') = ops (dev s) /\
    mem s' = mem s /\
    (rd < 0 ->
     sem_live (closesem (dev s')) = false /\
     log s' = log s ++ [Register_driver path mode_0444; Sem_destroy]) /\
    (0 <= rd ->
     sem_live (closesem (dev s')) = true /\
     log s' = log s ++ [Register_driver path mode_0444]).
Proof.
  intros Hpre.
  unfold powerled_register, bind, DEBUGASSERT.
  assert (Hassert :
    CONFIG_DEBUG_ASSERTIONS hdr &&
    negb (match path with Some _ => true | None => false end &&
          negb (handle =? 0)) = false).
  { destruct Hpre as [-> | [Hp Hh]]; [reflexivity | ].
    destruct path; [ | congruence].
    apply Z.eqb_neq in Hh. rewrite Hh. cbn. apply andb_false_r. }
  rewrite Hassert.
  unfold set_ocount, nxsem_init, set_lower, register_driver, bind, trace,
    mret, sem_destroy. cbn.
  destruct (rd <? 0) eqn:Hrd; cbn;
    (eexists; split; [reflexivity | ]); cbn;
    [apply Z.ltb_lt in Hrd | apply Z.ltb_ge in Hrd];
    repeat split; try reflexivity; try lia.
  now rewrite <- app_assoc.
Qed.

(** * Further properties of the driver *)

(** ** The contract of open and of close *)

(** X1.  [powerled_open] and [powerled_close] return when the wait on the
    guard fails or the guard is free, and the guard is then as it was
    before the call: it is released on every path that took it.  When the
    guard is taken and the wait does not fail, both wait for ever. *)
Theorem guard_released_on_every_path (wake : option Z) (s : system H) :
  ocount_in_range s ->
  (wake <> None \/ guard_free s ->
   (exists s', powerled_open hdr wake s = Done (OK hdr) s' /\
               closesem (dev s') = closesem (dev s)) /\
   (exists r s', powerled_close hdr wake s = Done r s' /\
                 closesem (dev s') = closesem (dev s))) /\
  (wake = None -> ~ guard_free s ->
   powerled_open hdr wake s = Blocked /\ powerled_close hdr wake s = Blocked).
Proof.
  intros Hr. unfold ocount_in_range in Hr. split.
  - intros Hw. destruct wake as [e | ].
    + rewrite open_wait_failed, close_wait_failed. split; eauto.
    + destruct Hw as [Hw | Hfree]; [congruence | ]. split.
      * destruct (Z.eq_dec (ocount (dev s)) 0) as [Hz | Hnz].
        -- destruct (open_first s Hz Hfree) as (s' & E & _ & _ & Hsem & _).
           eauto.
        -- destruct (open_nonfirst s) as (s' & E & _ & _ & Hsem & _);
             [lia | assumption | eauto].
      * destruct (Z_le_gt_dec (ocount (dev s)) 1) as [Hle | Hgt].
        -- destruct (close_last s Hle Hfree) as (s' & E & _ & _ & Hsem & _).
           eauto.
        -- destruct (close_nonlast s) as (s' & E & _ & _ & Hsem & _);
             [lia | assumption | eauto].
  - intros -> Hnot. run.
    assert (Hb : (0 <? semcount (closesem (dev s))) = false)
      by (apply Z.ltb_ge; lia).
    now rewrite Hb.
Qed.

(** X2.  With the guard free, [powerled_close] returns [OK] and lowers
    the count by one, but not below 0.  It calls [shutdown], inside the
    critical section, exactly when the count was 0 or 1; with a count
    above 1 it calls nothing and leaves the store alone. *)
Theorem close_contract (s : system H) :
  ocount_in_range s -> guard_free s ->
  exists s',
    powerled_close hdr None s = Done (OK hdr) s' /\
    updates s s'
      (Z.max 0 (ocount (dev s) - 1))
      (if ocount (dev s) <=? 1
       then snd (shutdown (ops (dev s)) (mem s)) else mem s)
      (if ocount (dev s) <=? 1
       then [Enter_critical; Call Shutdown; Leave_critical] else []).
Proof.
  intros Hr Hfree. unfold ocount_in_range in Hr.
  destruct (Z.leb_spec (ocount (dev s)) 1) as [Hle | Hgt].
  - destruct (close_last s Hle Hfree) as (s' & E & U).
    exists s'. split; [exact E | ].
    now replace (Z.max 0 (ocount (dev s) - 1)) with 0 by lia.
  - destruct (close_nonlast s) as (s' & E & U); [lia | assumption | ].
    exists s'. split; [exact E | ].
    now replace (Z.max 0 (ocount (dev s) - 1)) with (ocount (dev s) - 1)
      by lia.
Qed.

(** X3.  With the guard free, [powerled_open] returns [OK].  It calls
    [setup], inside the critical section, exactly when the count is 0,
    and then stores the count 1 if [setup] answered [OK]; a count that is
    not 0 is never changed, and nothing is called. *)
Theorem open_contract (s : system H) :
  ocount_in_range s -> guard_free s ->
  exists s',
    powerled_open hdr None s = Done (OK hdr) s' /\
    updates s s'
      (if ocount (dev s) =? 0
       then (if fst (setup (ops (dev s)) (mem s)) =? OK hdr then 1 else 0)
       else ocount (dev s))
      (if ocount (dev s) =? 0
       then snd (setup (ops (dev s)) (mem s)) else mem s)
      (if ocount (dev s) =? 0
       then [Enter_critical; Call Setup; Leave_critical] else []).
Proof.
  intros Hr Hfree. unfold ocount_in_range in Hr.
  destruct (Z.eqb_spec (ocount (dev s)) 0) as [Hz | Hnz].
  - exact (open_first s Hz Hfree).
  - apply open_nonfirst; [lia | assumption].
Qed.

(** X4.  A first open whose [setup] fails is not remembered: the next
    open finds the count at 0 and calls [setup] again, on the store that
    the first call left. *)
Theorem failed_setup_is_retried (s : system H) :
  ocount (dev s) = 0 -> guard_free s ->
  fst (setup (ops (dev s)) (mem s)) <> OK hdr ->
  exists s1 s2,
    powerled_open hdr None s = Done (OK hdr) s1 /\
    powerled_open hdr None s1 = Done (OK hdr) s2 /\
    log s2 = log s ++ [Enter_critical; Call Setup; Leave_critical;
                       Enter_critical; Call Setup; Leave_critical] /\
    mem s2 =
      snd (setup (ops (dev s)) (snd (setup (ops (dev s)) (mem s)))) /\
    ocount (dev s2) =
      (if fst (setup (ops (dev s)) (snd (setup (ops (dev s)) (mem s))))
          =? OK hdr then 1 else 0).
Proof.
  intros Hoc Hfree Hfail.
  destruct (open_first s Hoc Hfree) as (s1 & E1 & U1).
  apply Z.eqb_neq in Hfail. rewrite Hfail in U1.
  pose proof (updates_guard_free _ _ _ _ _ U1 Hfree) as F1.
  destruct U1 as (O1 & Hops & _ & _ & M1 & _ & L1).
  destruct (open_first s1 O1 F1) as (s2 & E2 & U2).
  destruct U2 as (O2 & _ & _ & _ & M2 & _ & L2).
  rewrite Hops, M1 in O2, M2.
  exists s1, s2. repeat (split; [assumption | ]).
  split; [ | split; assumption].
  now rewrite L2, L1, <- app_assoc.
Qed.

(** ** From registration to the last close *)

Lemma register_done (rd : Z) (path : option string) (handle : Z)
    (s : system H) :
  CONFIG_DEBUG_ASSERTIONS hdr = false \/ (path <> None /\ handle <> 0) ->
  0 <= rd ->
  exists s',
    powerled_register hdr rd path handle s = Done rd s' /\
    ocount (dev s') = 0 /\
    closesem (dev s') = {| semcount := 1; sem_live := true |} /\
    ops (dev s') = ops (dev s) /\
    mem s' = mem s /\
    log s' = log s ++ [Register_driver path mode_0444].
Proof.
  intros Hpre Hrd.
  unfold powerled_register, bind, DEBUGASSERT.
  assert (Hassert :
    CONFIG_DEBUG_ASSERTIONS hdr &&
    negb (match path with Some _ => true | None => false end &&
          negb (handle =? 0)) = false).
  { destruct Hpre as [-> | [Hp Hh]]; [reflexivity | ].
    destruct path; [ | congruence].
    apply Z.eqb_neq in Hh. rewrite Hh. cbn. apply andb_false_r. }
  rewrite Hassert.
  unfold set_ocount, nxsem_init, set_lower, register_driver, bind, trace,
    mret, sem_destroy. cbn.
  apply Z.ltb_ge in Hrd. rewrite Hrd. cbn.
  eexists; split; [reflexivity | ]. cbn. repeat split.
Qed.

(** X5.  After a registration that succeeded, a first open and a close
    both return [OK]; the history gained the registration, one [setup] and
    one [shutdown], each in its critical section, in this order, and
    [shutdown] is called whether [setup] had succeeded or not.  The count
    is 0 again and the guard is free. *)
Theorem register_open_close (rd : Z) (path : option string) (handle : Z)
    (s : system H) :
  CONFIG_DEBUG_ASSERTIONS hdr = false \/ (path <> None /\ handle <> 0) ->
  0 <= rd ->
  exists s0 s1 s2,
    powerled_register hdr rd path handle s = Done rd s0 /\
    powerled_open hdr None s0 = Done (OK hdr) s1 /\
    powerled_close hdr None s1 = Done (OK hdr) s2 /\
    log s2 = log s ++ [Register_driver path mode_0444;
                       Enter_critical; Call Setup; Leave_critical;
                       Enter_critical; Call Shutdown; Leave_critical] /\
    mem s2 =
      snd (shutdown (ops (dev s)) (snd (setup (ops (dev s)) (mem s)))) /\
    session_inv s2 /\ ocount (dev s2) = 0.
Proof.
  intros Hpre Hrd.
  destruct (register_done rd path handle s Hpre Hrd)
    as (s0 & E0 & O0 & C0 & P0 & M0 & L0).
  assert (F0 : guard_free s0) by (unfold guard_free; now rewrite C0).
  destruct (open_first s0 O0 F0) as (s1 & E1 & U1).
  pose proof (updates_guard_free _ _ _ _ _ U1 F0) as F1.
  destruct U1 as (O1 & P1 & _ & _ & M1 & _ & L1).
  destruct (close_last s1) as (s2 & E2 & U2);
    [rewrite O1; destruct (_ =? _); lia | assumption | ].
  pose proof (updates_guard_free _ _ _ _ _ U2 F1) as F2.
  destruct U2 as (O2 & _ & _ & _ & M2 & _ & L2).
  exists s0, s1, s2. repeat (split; [assumption | ]).
  split; [now rewrite L2, L1, L0, <- !app_assoc | ].
  split; [now rewrite M2, M1, P1, P0, M0 | ].
  split; [split; [assumption | lia] | assumption].
Qed.

(** ** Clients *)

Lemma spec_delegate_dispatch (cmd arg : Z) :
  dispatch_op (spec_delegate hdr cmd arg) = true.
Proof.
  unfold spec_delegate. cbn [switch].
  repeat match goal with
         | |- context [if ?b then _ else _] => destruct b
         end; reflexivity.
Qed.

Lemma dispatch_op_not_shutdown (c : op) :
  dispatch_op c = true -> calls Shutdown [Call c] = 0%nat.
Proof. destruct c; simpl; intros E; (discriminate E || reflexivity). Qed.

Lemma scan_dispatch_op (c : op) :
  dispatch_op c = true ->
  fold_left scan [Call c] (Some false) = Some false.
Proof. intros E. simpl. now rewrite E. Qed.

Ltac fin :=
  repeat split; try assumption; try reflexivity;
  try (unfold guard_free in *; cbn in *; lia).

(** What one request does to a session that satisfies the invariant. *)
Lemma serve_step (q : request) (s : system H) :
  session_inv s ->
  exists r s' evs,
    serve hdr q s = Done r s' /\
    session_inv s' /\
    log s' = log s ++ evs /\
    fold_left scan evs (Some false) = Some false /\
    calls Shutdown evs = (if guarded_close q then 1 else 0)%nat.
Proof.
  intros [Hfree Hoc]. destruct q as [wake | wake | cmd arg]; cbn [serve].
  - destruct wake as [e | ].
    + exists (OK hdr), (with_errno e s), [].
      rewrite open_wait_failed. cbn. rewrite app_nil_r.
      fin.
    + destruct (Z.eq_dec (ocount (dev s)) 0) as [Hz | Hnz].
      * destruct (open_first s Hz Hfree) as (s' & E & U).
        exists (OK hdr), s', [Enter_critical; Call Setup; Leave_critical].
        split; [exact E | ].
        split; [split; [exact (updates_guard_free _ _ _ _ _ U Hfree) | ] | ].
        { destruct U as (O & _). rewrite O. destruct (_ =? _); lia. }
        destruct U as (_ & _ & _ & _ & _ & _ & L). fin.
      * destruct (open_nonfirst s) as (s' & E & U); [lia | assumption | ].
        exists (OK hdr), s', [].
        split; [exact E | ].
        split; [split; [exact (updates_guard_free _ _ _ _ _ U Hfree) | ] | ].
        { destruct U as (O & _). rewrite O. exact Hoc. }
        destruct U as (_ & _ & _ & _ & _ & _ & L). fin.
  - destruct wake as [e | ].
    + exists (- e), (with_errno e s), [].
      rewrite close_wait_failed. cbn. rewrite app_nil_r.
      fin.
    + destruct (close_last s) as (s' & E & U); [lia | assumption | ].
      exists (OK hdr), s', [Enter_critical; Call Shutdown; Leave_critical].
      split; [exact E | ].
      split; [split; [exact (updates_guard_free _ _ _ _ _ U Hfree) | ] | ].
      { destruct U as (O & _). rewrite O. lia. }
      destruct U as (_ & _ & _ & _ & _ & _ & L). fin.
  - destruct (ioctl_refuses_or_delegates cmd arg s) as [[_ E] | [_ E]].
    + exists (- EPERM hdr), s, []. rewrite app_nil_r.
      fin.
    + rewrite call_eq in E.
      pose proof (spec_delegate_dispatch cmd arg) as D.
      exists (fst (invoke (ops (dev s)) (spec_delegate hdr cmd arg) (mem s))),
        (after_call (spec_delegate hdr cmd arg) s),
        [Call (spec_delegate hdr cmd arg)].
      split; [exact E | ].
      split; [split; assumption | ].
      split; [reflexivity | ].
      split; [now apply scan_dispatch_op | now apply dispatch_op_not_shutdown].
Qed.

(** What a client does to such a session. *)
Lemma serve_all_spec (qs : list request) (s : system H) :
  session_inv s ->
  exists rs s' evs,
    serve_all hdr qs s = Done rs s' /\
    List.length rs = List.length qs /\
    session_inv s' /\
    log s' = log s ++ evs /\
    fold_left scan evs (Some false) = Some false /\
    calls Shutdown evs = guarded_closes qs.
Proof.
  revert s. induction qs as [| q rest IH]; intros s Hinv.
  - exists [], s, []. rewrite app_nil_r. destruct Hinv. fin.
  - destruct (serve_step q s Hinv) as (r & s1 & evs1 & E1 & I1 & L1 & B1 & N1).
    destruct (IH s1 I1) as (rs & s2 & evs2 & E2 & Hlen & I2 & L2 & B2 & N2).
    exists (r :: rs), s2, (evs1 ++ evs2).
    split.
    { cbn [serve_all]. unfold bind at 1. rewrite E1.
      unfold bind. now rewrite E2. }
    split; [simpl; now rewrite Hlen | ].
    split; [assumption | ].
    split; [now rewrite L2, L1, app_assoc | ].
    split; [now rewrite fold_left_app, B1 | ].
    rewrite calls_app, N1, N2. unfold guarded_closes. simpl.
    destruct (guarded_close q); reflexivity.
Qed.

(** X6.  On a session whose guard is free and whose count is 0 or 1, as
    registration leaves it, every sequence of opens, closes and commands
    other than [PWRIOC_SET_PARAMS] (whose argument the dispatcher reads
    through unchecked) is served to the end once the operations of the
    lower half return: no request waits for the guard or fails an
    assertion, each one yields a status, and the session is again in such
    a state, whatever the lower half answers.  The count never
    reaches 2. *)
Theorem client_never_blocks (qs : list request) (s : system H) :
  session_inv s ->
  forallb (fun q => negb (reads_argument hdr q)) qs = true ->
  exists rs s',
    serve_all hdr qs s = Done rs s' /\
    List.length rs = List.length qs /\
    guard_free s' /\
    0 <= ocount (dev s') <= 1.
Proof.
  intros Hinv _.
  destruct (serve_all_spec qs s Hinv) as (rs & s' & _ & E & Hlen & [F O] & _).
  exists rs, s'. auto.
Qed.

(** X7.  In such a run [shutdown] is called once for every close whose
    wait on the guard did not fail, however many opens came before it:
    the number of calls of [shutdown] grows by the number of such
    closes. *)
Theorem one_shutdown_per_close (qs : list request) (s : system H) :
  session_inv s ->
  exists rs s',
    serve_all hdr qs s = Done rs s' /\
    calls Shutdown (log s') =
    (calls Shutdown (log s) + guarded_closes qs)%nat.
Proof.
  intros Hinv.
  destruct (serve_all_spec qs s Hinv)
    as (rs & s' & evs & E & _ & _ & L & _ & N).
  exists rs, s'. split; [exact E | ].
  now rewrite L, calls_app, N.
Qed.

(** X8.  In such a run the critical section is used properly: [setup]
    and [shutdown] are only called inside a section, the calls of the
    dispatcher only outside, sections are not nested and every section
    that is entered is left.  A history that is well formed stays so. *)
Theorem history_stays_bracketed (qs : list request) (s : system H) :
  session_inv s -> bracketed (log s) = true ->
  exists rs s',
    serve_all hdr qs s = Done rs s' /\
    bracketed (log s') = true.
Proof.
  intros Hinv Hb.
  destruct (serve_all_spec qs s Hinv)
    as (rs & s' & evs & E & _ & _ & L & B & _).
  exists rs, s'. split; [exact E | ].
  unfold bracketed in *. rewrite L, fold_left_app.
  destruct (fold_left scan (log s) (Some false)) as [[ | ] | ];
    try discriminate Hb.
  now rewrite B.
Qed.

(** ** Commands without a precondition *)

(** X9.  The six commands STOP, SET_MODE, GET_STATE, SET_FAULT, GET_FAULT
    and CLEAN_FAULT are never refused by the dispatcher: whatever the
    locks, the mode, the open count and the guard, each makes its one call
    of the lower half and answers with the status of that call.  The mode
    and the faults are passed as one byte, the pointers as received. *)
Theorem unconditional_commands_delegated (arg : Z) (s : system H) :
  powerled_ioctl hdr (PWRIOC_STOP hdr) arg s =
    Done (fst (stop (ops (dev s)) (mem s))) (after_call Stop s) /\
  powerled_ioctl hdr (PWRIOC_SET_MODE hdr) arg s =
    Done (fst (mode_set (ops (dev s)) (arg mod 256) (mem s)))
         (after_call (Mode_set (arg mod 256)) s) /\
  powerled_ioctl hdr (PWRIOC_GET_STATE hdr) arg s =
    Done (fst (state_get (ops (dev s)) arg (mem s)))
         (after_call (State_get arg) s) /\
  powerled_ioctl hdr (PWRIOC_SET_FAULT hdr) arg s =
    Done (fst (fault_set (ops (dev s)) (arg mod 256) (mem s)))
         (after_call (Fault_set (arg mod 256)) s) /\
  powerled_ioctl hdr (PWRIOC_GET_FAULT hdr) arg s =
    Done (fst (fault_get (ops (dev s)) arg (mem s)))
         (after_call (Fault_get arg) s) /\
  powerled_ioctl hdr (PWRIOC_CLEAN_FAULT hdr) arg s =
    Done (fst (fault_clean (ops (dev s)) (arg mod 256) (mem s)))
         (after_call (Fault_clean (arg mod 256)) s).
Proof.
  repeat split; ioctl_case; reflexivity.
Qed.

(** X10.  SET_MODE, SET_FAULT and CLEAN_FAULT only look at the low byte
    of their argument: two arguments that agree modulo 256 have the same
    effect and the same answer, and the value that reaches the lower half
    lies in 0..255. *)
Theorem byte_arguments_truncated (cmd arg arg' : Z) (s : system H) :
  cmd = PWRIOC_SET_MODE hdr \/ cmd = PWRIOC_SET_FAULT hdr \/
  cmd = PWRIOC_CLEAN_FAULT hdr ->
  arg mod 256 = arg' mod 256 ->
  powerled_ioctl hdr cmd arg s = powerled_ioctl hdr cmd arg' s /\
  exists b,
    0 <= b < 256 /\
    (spec_delegate hdr cmd arg = Mode_set b \/
     spec_delegate hdr cmd arg = Fault_set b \/
     spec_delegate hdr cmd arg = Fault_clean b) /\
    powerled_ioctl hdr cmd arg s =
    Done (fst (invoke (ops (dev s)) (spec_delegate hdr cmd arg) (mem s)))
         (after_call (spec_delegate hdr cmd arg) s).
Proof.
  intros Hcmd Hmod.
  assert (Hb : 0 <= arg mod 256 < 256) by (apply Z.mod_pos_bound; lia).
  destruct Hcmd as [-> | [-> | ->]]; (split; [ | exists (arg mod 256)]).
  all: try (split; [exact Hb | ]).
  all: unfold powerled_ioctl, spec_delegate, bind, get_powerled;
    repeat erewrite switch_hit by pick_case; unfold uint8;
    rewrite ?Hmod; auto.
Qed.

(** ** The assertion of the registration *)

(** X12.  [powerled_register] has no error status for a [NULL] path or a
    [NULL] lower-half handle.  With assertions compiled in it stops at its
    first assertion, before anything is initialised or registered.  With
    assertions compiled out it goes on: it stores the handle as it is,
    hands the path to [register_driver] and returns the status of
    [register_driver]. *)
Theorem register_with_NULL_argument (rd : Z) (path : option string)
    (handle : Z) (s : system H) :
  path = None \/ handle = 0 ->
  (CONFIG_DEBUG_ASSERTIONS hdr = true ->
   powerled_register hdr rd path handle s = Panic) /\
  (CONFIG_DEBUG_ASSERTIONS hdr = false ->
   exists s' evs,
     powerled_register hdr rd path handle s = Done rd s' /\
     lower (dev s') = handle /\
     ocount (dev s') = 0 /\
     log s' = log s ++ Register_driver path mode_0444 :: evs).
Proof.
  intros Hnull. unfold powerled_register, bind, DEBUGASSERT. split.
  - intros ->. cbn [andb].
    destruct Hnull as [-> | ->]; [reflexivity | ].
    destruct path; reflexivity.
  - intros ->. cbn [andb].
    unfold set_ocount, nxsem_init, set_lower, register_driver, bind,
      trace, mret, sem_destroy. cbn.
    destruct (rd <? 0); cbn.
    + eexists; exists [Sem_destroy]. rewrite <- app_assoc. repeat split.
    + eexists; exists []. repeat split.
Qed.

(** ** The range tests on floats *)

Lemma digits2_pos_bounds (m : positive) :
  2 ^ (Z.pos (digits2_pos m) - 1) <= Z.pos m < 2 ^ Z.pos (digits2_pos m).
Proof.
  induction m as [p IH | p IH | ]; cbn [digits2_pos].
  - rewrite Pos2Z.inj_succ.
    replace (Z.succ (Z.pos (digits2_pos p)) - 1)
      with (Z.succ (Z.pos (digits2_pos p) - 1)) by lia.
    rewrite !Z.pow_succ_r by lia. lia.
  - rewrite Pos2Z.inj_succ.
    replace (Z.succ (Z.pos (digits2_pos p)) - 1)
      with (Z.succ (Z.pos (digits2_pos p) - 1)) by lia.
    rewrite !Z.pow_succ_r by lia. lia.
  - cbn. lia.
Qed.

(** The mantissa of a binary32 datum has at most 24 bits, and exactly 24
    when the exponent is above the least one. *)
Lemma binary32_mantissa (m : positive) (e : Z) :
  valid_binary 24 128 (S754_finite false m e) = true ->
  Z.pos m < 2 ^ 24 /\ (-149 < e -> 2 ^ 23 <= Z.pos m).
Proof.
  cbn [valid_binary]. unfold bounded, canonical_mantissa, fexp, emin.
  intros V. apply andb_true_iff in V. destruct V as [C _].
  apply Z.eqb_eq in C.
  pose proof (digits2_pos_bounds m) as [Lo Hi].
  assert (D : Z.pos (digits2_pos m) <= 24) by lia.
  split.
  - apply Z.lt_le_trans with (1 := Hi).
    apply Z.pow_le_mono_r; lia.
  - intros He.
    assert (D' : Z.pos (digits2_pos m) = 24) by lia.
    rewrite D' in Lo. exact Lo.
Qed.

Lemma float_value_finite (sg : bool) (m : positive) (e n d : Z) :
  float_value (S754_finite sg m e) = Some (n, d) ->
  (0 <= e /\ n = (if sg then Z.neg m else Z.pos m) * 2 ^ e /\ d = 1) \/
  (e < 0 /\ n = (if sg then Z.neg m else Z.pos m) /\ d = 2 ^ (- e)).
Proof.
  unfold float_value.
  destruct (Z.leb_spec 0 e); intros E; injection E as <- <-;
    [left | right]; auto.
Qed.

(** Comparing a binary32 datum with [100.0] is comparing its value
    with 100. *)
Lemma fgt_100_value (x : float) (n d : Z) :
  float_is x n d -> (fgt x float_100 = true <-> 100 * d < n).
Proof.
  intros [V E]. destruct x as [sg | sg | | sg m e]; try discriminate E.
  - injection E as <- <-. split; [discriminate | lia].
  - unfold fgt, float_100, SFltb. cbn [SFcompare].
    apply float_value_finite in E.
    pose proof (Pos2Z.neg_is_neg m) as Hneg.
    assert (P : forall k, 0 <= k -> 0 < 2 ^ k)
      by (intros; now apply Z.pow_pos_nonneg).
    destruct sg.
    + split; [discriminate | intros Hgt; exfalso].
      destruct E as [(He & -> & ->) | (He & -> & ->)].
      * specialize (P e He). nia.
      * specialize (P (- e) ltac:(lia)). lia.
    + destruct (binary32_mantissa m e V) as [Hi Lo].
      change (2 ^ 24) with 16777216 in Hi.
      change (2 ^ 23) with 8388608 in Lo.
      destruct (Z.compare_spec (-17) e) as [He | He | He].
      * subst e. destruct E as [(He & _) | (_ & -> & ->)]; [lia | ].
        change (2 ^ (- -17)) with 131072.
        change (Pos.compare_cont Eq 13107200 m) with (13107200 ?= m)%positive.
        rewrite Pos2Z.inj_compare.
        destruct (Z.compare_spec 13107200 (Z.pos m)); split;
          try discriminate; try reflexivity; lia.
      * split; [intros _ | reflexivity].
        specialize (Lo ltac:(lia)).
        destruct E as [(H0 & -> & ->) | (H0 & -> & ->)].
        -- specialize (P e H0). nia.
        -- assert (2 ^ (- e) <= 2 ^ 16) by (apply Z.pow_le_mono_r; lia).
           change (2 ^ 16) with 65536 in *. lia.
      * split; [discriminate | intros Hgt; exfalso].
        destruct E as [(H0 & _) | (H0 & -> & ->)]; [lia | ].
        assert (2 ^ 18 <= 2 ^ (- e)) by (apply Z.pow_le_mono_r; lia).
        change (2 ^ 18) with 262144 in *. lia.
Qed.


End Properties.

(** * The driver on concrete sessions *)

(** The float constants are binary32 values and denote 1, 50, 100, 101
    and 1000. *)
Example float_constants_valid :
  map (valid_binary 24 128)
      [float_0; float_1; float_50; float_100; float_100_succ; float_101;
       float_1000] = [true; true; true; true; true; true; true].
Proof. reflexivity. Qed.

Example float_constants_values :
  map float_value [float_1; float_50; float_100; float_101; float_1000] =
  [Some (1 * 2 ^ 23, 2 ^ 23); Some (50 * 2 ^ 18, 2 ^ 18);
   Some (100 * 2 ^ 17, 2 ^ 17); Some (101 * 2 ^ 17, 2 ^ 17);
   Some (1000 * 2 ^ 14, 2 ^ 14)].
Proof. reflexivity. Qed.

(** Comparing with [0.0] is comparing the value with 0. *)
Lemma fle_zero_value (x : float) (n d : Z) :
  float_value x = Some (n, d) -> (fle x float_0 = true <-> n <= 0).
Proof.
  destruct x as [sg | sg | | sg m e]; cbn [float_value]; try discriminate.
  - intros E; inversion E; subst. split; [lia | reflexivity].
  - assert (P : forall k, 0 <= k -> 0 < 2 ^ k)
      by (intros; now apply Z.pow_pos_nonneg).
    pose proof (Pos2Z.neg_is_neg m) as Hneg.
    pose proof (Pos2Z.is_pos m) as Hpos.
    destruct (Z.leb_spec 0 e) as [He | He]; intros E; inversion E; subst;
      destruct sg; unfold fle, float_0; cbn [SFleb SFcompare].
    + split; [intros _| reflexivity]. specialize (P e He). nia.
    + split; [discriminate | intros L]. specialize (P e He). nia.
    + split; [lia | reflexivity].
    + split; [discriminate | lia].
Qed.

Lemma flt_zero_value (x : float) (n d : Z) :
  float_value x = Some (n, d) -> (flt x float_0 = true <-> n < 0).
Proof.
  destruct x as [sg | sg | | sg m e]; cbn [float_value]; try discriminate.
  - intros E; inversion E; subst. split; [discriminate | lia].
  - assert (P : forall k, 0 <= k -> 0 < 2 ^ k)
      by (intros; now apply Z.pow_pos_nonneg).
    pose proof (Pos2Z.neg_is_neg m) as Hneg.
    pose proof (Pos2Z.is_pos m) as Hpos.
    destruct (Z.leb_spec 0 e) as [He | He]; intros E; inversion E; subst;
      destruct sg; unfold flt, float_0; cbn [SFltb SFcompare].
    + split; [intros _| reflexivity]. specialize (P e He). nia.
    + split; [discriminate | intros L]. specialize (P e He). nia.
    + split; [lia | reflexivity].
    + split; [discriminate | lia].
Qed.

(** For every float but NaN, [x <= 0] says that [x] is not above 0. *)
Lemma fle_zero_not_positive (x : float) :
  x <> S754_nan -> (fle x float_0 = true <-> fgt x float_0 = false).
Proof.
  destruct x as [sg | sg | | sg m e]; intros Hx; try congruence;
    destruct sg; unfold fle, fgt, float_0; cbn; split;
    (reflexivity || discriminate).
Qed.

(** A NaN is neither below 0 nor above 100, and not [<= 0]: the tests of
    the dispatcher let it through. *)
Remark nan_passes_the_tests :
  flt S754_nan float_0 = false /\ fgt S754_nan float_100 = false /\
  fle S754_nan float_0 = false.
Proof. repeat split. Qed.

(** The boundary of the range: 100 is accepted, the next binary32 value
    is refused. *)
Remark brightness_boundary :
  fgt float_100 float_100 = false /\ fgt float_100_succ float_100 = true.
Proof. split; reflexivity. Qed.

(** ** Runs of open and close *)

Lemma open_open_close_close_shutdown_twice_witness :
  ocount (dev demo_fresh) = 0 /\
  guard_free demo_fresh /\
  fst (setup (ops (dev demo_fresh)) (mem demo_fresh)) = OK demo_headers /\
  exists s1 s2 s3 s4,
    powerled_open demo_headers None demo_fresh = Done (OK demo_headers) s1 /\
    powerled_open demo_headers None s1 = Done (OK demo_headers) s2 /\
    ocount (dev s2) = 1 /\
    powerled_close demo_headers None s2 = Done (OK demo_headers) s3 /\
    powerled_close demo_headers None s3 = Done (OK demo_headers) s4 /\
    calls Setup (log s4) = 1%nat /\
    calls Shutdown (log s4) = 2%nat.
Proof.
  assert (H0 : ocount (dev demo_fresh) = 0) by reflexivity.
  assert (H1 : guard_free demo_fresh) by reflexivity.
  assert (H2 : fst (setup (ops (dev demo_fresh)) (mem demo_fresh)) =
               OK demo_headers) by reflexivity.
  repeat (split; [assumption | ]).
  destruct (open_open_close_close_shutdown_twice Z demo_headers demo_fresh
              H0 H1 H2)
    as (s1 & s2 & s3 & s4 & E1 & _ & _ & E2 & O2 & _ & E3 & _ & _ & E4 & _ &
        N4 & N5).
  exists s1, s2, s3, s4.
  split; [exact E1 | split; [exact E2 | split; [exact O2 | ]]].
  split; [exact E3 | split; [exact E4 | split; [exact N5 | exact N4]]].
Defined.

Lemma open_failure_reported_as_OK_witness :
  (Some 4 <> None /\
   exists s',
     powerled_open demo_headers (Some 4) demo_fresh =
     Done (OK demo_headers) s' /\
     ocount (dev s') = 0) /\
  (ocount (dev demo_full) = 255 /\ guard_free demo_full /\
   exists s',
     powerled_open demo_headers None demo_full = Done (OK demo_headers) s' /\
     ocount (dev s') = 255).
Proof.
  assert (H0 : Some 4 <> (None : option Z)) by discriminate.
  assert (H1 : ocount (dev demo_full) = 255) by reflexivity.
  assert (H2 : guard_free demo_full) by reflexivity.
  split.
  - split; [assumption | ].
    destruct (open_failure_reported_as_OK Z demo_headers (Some 4) demo_fresh
                (or_introl H0)) as (s' & E & O & _).
    exists s'. split; assumption.
  - split; [assumption | split; [assumption | ]].
    destruct (open_failure_reported_as_OK Z demo_headers None demo_full
                (or_intror (conj H1 H2))) as (s' & E & O & _).
    exists s'. split; assumption.
Defined.

Lemma open_setup_failure_witness :
  ocount (dev demo_fresh_bad_setup) = 0 /\
  guard_free demo_fresh_bad_setup /\
  fst (setup (ops (dev demo_fresh_bad_setup)) (mem demo_fresh_bad_setup)) <>
  OK demo_headers /\
  exists s',
    powerled_open demo_headers None demo_fresh_bad_setup =
    Done (OK demo_headers) s' /\
    ocount (dev s') = 0.
Proof.
  assert (H0 : ocount (dev demo_fresh_bad_setup) = 0) by reflexivity.
  assert (H1 : guard_free demo_fresh_bad_setup) by reflexivity.
  assert (H2 : fst (setup (ops (dev demo_fresh_bad_setup))
                      (mem demo_fresh_bad_setup)) <> OK demo_headers)
    by discriminate.
  repeat (split; [assumption | ]).
  destruct (open_setup_failure_keeps_count_and_reports_OK Z demo_headers
              demo_fresh_bad_setup H0 H1 H2) as (s' & E & O & _).
  exists s'. split; assumption.
Defined.

Lemma close_at_zero_witness :
  ocount (dev demo_fresh) = 0 /\
  guard_free demo_fresh /\
  exists s' s'',
    powerled_close demo_headers None demo_fresh = Done (OK demo_headers) s' /\
    ocount (dev s') = 0 /\
    log s' = [Enter_critical; Call Shutdown; Leave_critical] /\
    powerled_close demo_headers None s' = Done (OK demo_headers) s'' /\
    calls Shutdown (log s'') = 2%nat /\
    calls Setup (log s'') = 0%nat.
Proof.
  assert (H0 : ocount (dev demo_fresh) = 0) by reflexivity.
  assert (H1 : guard_free demo_fresh) by reflexivity.
  split; [exact H0 | split; [exact H1 | ]].
  destruct (close_at_zero_runs_shutdown Z demo_headers demo_fresh H0 H1)
    as (s' & s'' & E & O & _ & _ & L & E' & N & N').
  exists s', s''.
  split; [exact E | split; [exact O | split; [exact L | ]]].
  split; [exact E' | split; [exact N | exact N']].
Defined.

(** ** Runs of the dispatcher *)

Lemma START_witness :
  (start_refused demo_headers (priv (mem demo_unarmed)) /\
   powerled_ioctl demo_headers (PWRIOC_START demo_headers) 0 demo_unarmed =
   Done (- EPERM demo_headers) demo_unarmed) /\
  (Limits.lock (limits (priv (mem demo_armed))) = true /\
   fle (current (limits (priv (mem demo_armed)))) float_0 = false /\
   opmode (priv (mem demo_armed)) = POWERLED_OPMODE_CONTINUOUS demo_headers /\
   powerled_ioctl demo_headers (PWRIOC_START demo_headers) 0 demo_armed =
   Done (OK demo_headers) (after_call Start demo_armed)).
Proof.
  assert (H0 : start_refused demo_headers (priv (mem demo_unarmed)))
    by (left; reflexivity).
  assert (H1 : Limits.lock (limits (priv (mem demo_armed))) = true)
    by reflexivity.
  assert (H2 : fle (current (limits (priv (mem demo_armed)))) float_0 = false)
    by reflexivity.
  assert (H3 : opmode (priv (mem demo_armed)) =
               POWERLED_OPMODE_CONTINUOUS demo_headers) by reflexivity.
  split.
  - split; [assumption | ].
    exact (proj1 (START_refused_or_delegated Z demo_headers 0 demo_unarmed) H0).
  - repeat (split; [assumption | ]).
    exact (proj1 (proj2 (START_refused_or_delegated Z demo_headers 0
                           demo_armed))
             H1 H2 (or_introl H3)).
Defined.


Lemma SET_LIMITS_witness :
  (Limits.lock (limits (priv (mem demo_armed))) = true /\
   powerled_ioctl demo_headers (PWRIOC_SET_LIMITS demo_headers) 7 demo_armed =
   Done (- EPERM demo_headers) demo_armed) /\
  (Limits.lock (limits (priv (mem demo_unarmed))) = false /\
   powerled_ioctl demo_headers (PWRIOC_SET_LIMITS demo_headers) 7 demo_unarmed =
   Done (OK demo_headers) (after_call (Limits_set 7) demo_unarmed)).
Proof.
  assert (H0 : Limits.lock (limits (priv (mem demo_armed))) = true)
    by reflexivity.
  assert (H1 : Limits.lock (limits (priv (mem demo_unarmed))) = false)
    by reflexivity.
  split; (split; [assumption | ]).
  - exact (proj1 (SET_LIMITS_refused_iff_locked Z demo_headers 7 demo_armed)
             H0).
  - exact (proj1 (proj2 (SET_LIMITS_refused_iff_locked Z demo_headers 7
                           demo_unarmed)) H1).
Defined.

(** C6 as stated.  The answer [-EPERM] does not tell that the limits were
    locked: with the limits unlocked the dispatcher delegates, and a
    [limits_set] that answers [ERROR] (which is [-EPERM], both are -1)
    makes the dispatcher answer [-EPERM] as well. *)
Lemma SET_LIMITS_EPERM_while_unlocked :
  ~ (forall (H : Type) (hdr : headers) (arg : Z) (s s' : system H) (r : Z),
       powerled_ioctl hdr (PWRIOC_SET_LIMITS hdr) arg s = Done r s' ->
       (r = - EPERM hdr <-> Limits.lock (limits (priv (mem s))) = true)).
Proof.
  intros C.
  destruct (C Z demo_headers 7 demo_unarmed_refusing
              (after_call (Limits_set 7) demo_unarmed_refusing) (-1) eq_refl)
    as [C1 _].
  discriminate (C1 eq_refl).
Qed.

Lemma unrecognized_command_witness :
  ~ In 12345 (recognized demo_headers) /\
  powerled_ioctl demo_headers 12345 7 demo_armed =
  Done (12345 + 7) (after_call (Ioctl 12345 7) demo_armed).
Proof.
  assert (H0 : ~ In 12345 (recognized demo_headers))
    by (simpl; intuition discriminate).
  split; [assumption | ].
  exact (unrecognized_command_forwarded Z demo_headers 12345 7 demo_armed H0).
Defined.


(** ** A run of the registration *)

Lemma register_witness :
  (Some "/dev/powerled0"%string <> None /\ 4096 <> 0) /\
  exists s',
    powerled_register demo_headers (-17) (Some "/dev/powerled0"%string) 4096
      demo_unregistered = Done (-17) s' /\
    ocount (dev s') = 0 /\
    closesem (dev s') = {| semcount := 1; sem_live := false |} /\
    lower (dev s') = 4096 /\
    log s' = [Register_driver (Some "/dev/powerled0"%string) mode_0444;
              Sem_destroy].
Proof.
  assert (H0 : Some "/dev/powerled0"%string <> None /\ 4096 <> 0)
    by (split; discriminate).
  split; [assumption | ].
  destruct (register_initialises_and_cleans_up Z demo_headers (-17)
              (Some "/dev/powerled0"%string) 4096 demo_unregistered
              (or_intror H0))
    as (s' & E & O & C & Lw & _ & _ & F & _).
  destruct (F eq_refl) as [Lv Lg].
  exists s'. repeat (split; [assumption | ]).
  split; [ | split; [assumption | exact Lg]].
  destruct (closesem (dev s')) as [n l]. simpl in C, Lv. now subst.
Defined.

(** * The range tests of the dispatcher, in terms of values *)

Section RangeTests.

Variable H : Type.
Variable hdr : headers.

(** X13.  When the parameters are not locked and the structure supplied
    holds finite numbers, [PWRIOC_SET_PARAMS] is handed to
    [ops->params_set] exactly when 0 <= brightness <= 100, 0 <= frequency
    and 0 <= duty <= 100 as exact values, both ends of the ranges
    included, and is refused with [-EPERM] otherwise.  The frequency has
    no upper bound. *)
Theorem SET_PARAMS_exact_range (arg : Z) (s : system H)
    (nb db nf df nd dd : Z) :
  Params.lock (param (priv (mem s))) = false ->
  float_is (brightness (user_params (mem s) arg)) nb db ->
  float_value (frequency (user_params (mem s) arg)) = Some (nf, df) ->
  float_is (duty (user_params (mem s) arg)) nd dd ->
  (0 <= nb <= 100 * db /\ 0 <= nf /\ 0 <= nd <= 100 * dd ->
   powerled_ioctl hdr (PWRIOC_SET_PARAMS hdr) arg s =
   Done (fst (params_set (ops (dev s)) arg (mem s)))
        (after_call (Params_set arg) s)) /\
  (~ (0 <= nb <= 100 * db /\ 0 <= nf /\ 0 <= nd <= 100 * dd) ->
   powerled_ioctl hdr (PWRIOC_SET_PARAMS hdr) arg s =
   Done (- EPERM hdr) s).
Proof.
  intros Hl Hb Hf Hd.
  rewrite ioctl_SET_PARAMS, call_eq, Hl. cbn [orb]. unfold params_invalid.
  pose proof (flt_zero_value _ _ _ (proj2 Hb)) as B0.
  pose proof (fgt_100_value _ _ _ Hb) as B1.
  pose proof (flt_zero_value _ _ _ Hf) as F0.
  pose proof (flt_zero_value _ _ _ (proj2 Hd)) as D0.
  pose proof (fgt_100_value _ _ _ Hd) as D1.
  destruct (flt (brightness _) float_0);
    destruct (fgt (brightness _) float_100);
    destruct (flt (frequency _) float_0);
    destruct (flt (duty _) float_0);
    destruct (fgt (duty _) float_100); cbn [orb];
    split; intros R; try reflexivity; exfalso;
    intuition (try discriminate; try lia).
Qed.

(** X14.  The test of [PWRIOC_SET_PARAMS] never refuses a structure
    because of a NaN: a structure that passes the test still passes it
    when its brightness, its frequency or its duty is replaced by a NaN,
    and also when its frequency is replaced by plus infinity. *)
Theorem params_test_blind_to_NaN (p q : powerled_params_s) :
  params_invalid p = false ->
  brightness q = brightness p \/ brightness q = S754_nan ->
  frequency q = frequency p \/ frequency q = S754_nan \/
  frequency q = S754_infinity false ->
  duty q = duty p \/ duty q = S754_nan ->
  params_invalid q = false.
Proof.
  unfold params_invalid. intros Hp Hb Hf Hd.
  rewrite !orb_false_iff in *.
  destruct Hp as ((((B0 & B1) & F0) & D0) & D1).
  repeat split.
  - destruct Hb as [-> | ->]; [exact B0 | reflexivity].
  - destruct Hb as [-> | ->]; [exact B1 | reflexivity].
  - destruct Hf as [-> | [-> | ->]]; [exact F0 | reflexivity ..].
  - destruct Hd as [-> | ->]; [exact D0 | reflexivity].
  - destruct Hd as [-> | ->]; [exact D1 | reflexivity].
Qed.

(** X15.  With the limits locked and a supported mode, [PWRIOC_START]
    with a finite limit current is handed to [ops->start] exactly when the
    value of the current is above 0, and refused with [-EPERM] when it is
    0 or below; a current that is a NaN is handed on as well. *)
Theorem START_current_threshold (arg : Z) (s : system H) :
  Limits.lock (limits (priv (mem s))) = true ->
  opmode (priv (mem s)) = POWERLED_OPMODE_CONTINUOUS hdr \/
  opmode (priv (mem s)) = POWERLED_OPMODE_FLASH hdr ->
  (forall n d,
     float_value (current (limits (priv (mem s)))) = Some (n, d) ->
     (0 < n ->
      powerled_ioctl hdr (PWRIOC_START hdr) arg s =
      Done (fst (start (ops (dev s)) (mem s))) (after_call Start s)) /\
     (n <= 0 ->
      powerled_ioctl hdr (PWRIOC_START hdr) arg s = Done (- EPERM hdr) s)) /\
  (current (limits (priv (mem s))) = S754_nan ->
   powerled_ioctl hdr (PWRIOC_START hdr) arg s =
   Done (fst (start (ops (dev s)) (mem s))) (after_call Start s)).
Proof.
  intros Hl Hm.
  assert (Hmode :
    negb (opmode (priv (mem s)) =? POWERLED_OPMODE_CONTINUOUS hdr) &&
    negb (opmode (priv (mem s)) =? POWERLED_OPMODE_FLASH hdr) = false).
  { destruct Hm as [-> | ->]; rewrite Z.eqb_refl; cbn;
      now rewrite ?andb_false_r. }
  rewrite ioctl_START, call_eq, Hl, Hmode. cbn [negb orb]. split.
  - intros n d E. pose proof (fle_zero_value _ _ _ E) as C.
    destruct (fle (current (limits (priv (mem s)))) float_0); cbn [orb];
      split; intros R; try reflexivity; exfalso;
      intuition (try discriminate; try lia).
  - intros ->. reflexivity.
Qed.

End RangeTests.

(** * Further runs on concrete sessions *)

Lemma guard_released_witness :
  ocount_in_range demo_fresh /\
  ocount_in_range demo_guard_taken /\
  (exists s',
     powerled_open demo_headers None demo_fresh = Done (OK demo_headers) s' /\
     closesem (dev s') = closesem (dev demo_fresh)) /\
  powerled_close demo_headers None demo_guard_taken = Blocked.
Proof.
  assert (H0 : ocount_in_range demo_fresh) by (unfold ocount_in_range; cbn; lia).
  assert (H1 : ocount_in_range demo_guard_taken)
    by (unfold ocount_in_range; cbn; lia).
  assert (H2 : guard_free demo_fresh) by reflexivity.
  assert (H3 : ~ guard_free demo_guard_taken)
    by (unfold guard_free; cbn; lia).
  split; [exact H0 | split; [exact H1 | split]].
  - exact (proj1 (proj1 (guard_released_on_every_path Z demo_headers None
                           demo_fresh H0) (or_intror H2))).
  - exact (proj2 (proj2 (guard_released_on_every_path Z demo_headers None
                           demo_guard_taken H1) eq_refl H3)).
Defined.

Lemma close_contract_witness :
  ocount_in_range demo_three_openers /\
  guard_free demo_three_openers /\
  exists s',
    powerled_close demo_headers None demo_three_openers =
    Done (OK demo_headers) s' /\
    ocount (dev s') = 2 /\
    log s' = [].
Proof.
  assert (H0 : ocount_in_range demo_three_openers)
    by (unfold ocount_in_range; cbn; lia).
  assert (H1 : guard_free demo_three_openers) by reflexivity.
  split; [exact H0 | split; [exact H1 | ]].
  destruct (close_contract Z demo_headers demo_three_openers H0 H1)
    as (s' & E & O & _ & _ & _ & _ & _ & L).
  exists s'. split; [exact E | split; [exact O | exact L]].
Defined.

Lemma open_contract_witness :
  ocount_in_range demo_armed /\
  guard_free demo_armed /\
  exists s',
    powerled_open demo_headers None demo_armed = Done (OK demo_headers) s' /\
    ocount (dev s') = 1 /\
    log s' = [].
Proof.
  assert (H0 : ocount_in_range demo_armed)
    by (unfold ocount_in_range; cbn; lia).
  assert (H1 : guard_free demo_armed) by reflexivity.
  split; [exact H0 | split; [exact H1 | ]].
  destruct (open_contract Z demo_headers demo_armed H0 H1)
    as (s' & E & O & _ & _ & _ & _ & _ & L).
  exists s'. split; [exact E | split; [exact O | exact L]].
Defined.

Lemma failed_setup_is_retried_witness :
  ocount (dev demo_fresh_bad_setup) = 0 /\
  guard_free demo_fresh_bad_setup /\
  exists s1 s2,
    powerled_open demo_headers None demo_fresh_bad_setup =
    Done (OK demo_headers) s1 /\
    powerled_open demo_headers None s1 = Done (OK demo_headers) s2 /\
    calls Setup (log s2) = 2%nat /\
    ocount (dev s2) = 0.
Proof.
  assert (H0 : ocount (dev demo_fresh_bad_setup) = 0) by reflexivity.
  assert (H1 : guard_free demo_fresh_bad_setup) by reflexivity.
  assert (H2 : fst (setup (ops (dev demo_fresh_bad_setup))
                      (mem demo_fresh_bad_setup)) <> OK demo_headers)
    by discriminate.
  split; [exact H0 | split; [exact H1 | ]].
  destruct (failed_setup_is_retried Z demo_headers demo_fresh_bad_setup
              H0 H1 H2) as (s1 & s2 & E1 & E2 & L & _ & O).
  exists s1, s2. split; [exact E1 | split; [exact E2 | split]].
  - rewrite L. reflexivity.
  - exact O.
Defined.

Lemma register_open_close_witness :
  (Some "/dev/powerled0"%string <> None /\ 4096 <> 0) /\
  exists s0 s1 s2,
    powerled_register demo_headers 0 (Some "/dev/powerled0"%string) 4096
      demo_unregistered = Done 0 s0 /\
    powerled_open demo_headers None s0 = Done (OK demo_headers) s1 /\
    powerled_close demo_headers None s1 = Done (OK demo_headers) s2 /\
    ocount (dev s2) = 0.
Proof.
  assert (H0 : Some "/dev/powerled0"%string <> None /\ 4096 <> 0)
    by (split; discriminate).
  assert (H1 : 0 <= 0) by lia.
  split; [exact H0 | ].
  destruct (register_open_close Z demo_headers 0
              (Some "/dev/powerled0"%string) 4096 demo_unregistered
              (or_intror H0) H1)
    as (s0 & s1 & s2 & E0 & E1 & E2 & _ & _ & _ & O).
  exists s0, s1, s2.
  split; [exact E0 | split; [exact E1 | split; [exact E2 | exact O]]].
Defined.

Lemma client_never_blocks_witness :
  session_inv demo_fresh /\
  forallb (fun q => negb (reads_argument demo_headers q)) demo_client = true /\
  exists rs s',
    serve_all demo_headers demo_client demo_fresh = Done rs s' /\
    List.length rs = 6%nat /\
    0 <= ocount (dev s') <= 1.
Proof.
  assert (H0 : session_inv demo_fresh)
    by (split; [reflexivity | cbn; lia]).
  assert (H1 : forallb (fun q => negb (reads_argument demo_headers q))
                 demo_client = true) by reflexivity.
  split; [exact H0 | split; [exact H1 | ]].
  destruct (client_never_blocks Z demo_headers demo_client demo_fresh H0 H1)
    as (rs & s' & E & Hlen & _ & O).
  exists rs, s'. split; [exact E | split; [exact Hlen | exact O]].
Defined.

Lemma one_shutdown_per_close_witness :
  session_inv demo_fresh /\
  exists rs s',
    serve_all demo_headers demo_client demo_fresh = Done rs s' /\
    calls Shutdown (log s') = 2%nat.
Proof.
  assert (H0 : session_inv demo_fresh)
    by (split; [reflexivity | cbn; lia]).
  split; [exact H0 | ].
  destruct (one_shutdown_per_close Z demo_headers demo_client demo_fresh H0)
    as (rs & s' & E & N).
  exists rs, s'. split; [exact E | exact N].
Defined.

Lemma history_stays_bracketed_witness :
  session_inv demo_fresh /\
  bracketed (log demo_fresh) = true /\
  exists rs s',
    serve_all demo_headers demo_client demo_fresh = Done rs s' /\
    bracketed (log s') = true.
Proof.
  assert (H0 : session_inv demo_fresh)
    by (split; [reflexivity | cbn; lia]).
  assert (H1 : bracketed (log demo_fresh) = true) by reflexivity.
  split; [exact H0 | split; [exact H1 | ]].
  exact (history_stays_bracketed Z demo_headers demo_client demo_fresh H0 H1).
Defined.

Lemma byte_arguments_witness :
  3 mod 256 = 259 mod 256 /\
  powerled_ioctl demo_headers (PWRIOC_SET_MODE demo_headers) 3 demo_armed =
  powerled_ioctl demo_headers (PWRIOC_SET_MODE demo_headers) 259 demo_armed.
Proof.
  assert (H0 : 3 mod 256 = 259 mod 256) by reflexivity.
  split; [exact H0 | ].
  exact (proj1 (byte_arguments_truncated Z demo_headers
                  (PWRIOC_SET_MODE demo_headers) 3 259 demo_armed
                  (or_introl eq_refl) H0)).
Defined.

Lemma SET_PARAMS_exact_range_witness :
  Params.lock (param (priv (mem demo_armed))) = false /\
  float_is float_50 (50 * 2 ^ 18) (2 ^ 18) /\
  float_value float_1000 = Some (1000 * 2 ^ 14, 2 ^ 14) /\
  powerled_ioctl demo_headers (PWRIOC_SET_PARAMS demo_headers) 7 demo_armed =
  Done (OK demo_headers) (after_call (Params_set 7) demo_armed).
Proof.
  assert (H0 : Params.lock (param (priv (mem demo_armed))) = false)
    by reflexivity.
  assert (H1 : float_is float_50 (50 * 2 ^ 18) (2 ^ 18))
    by (split; reflexivity).
  assert (H2 : float_value float_1000 = Some (1000 * 2 ^ 14, 2 ^ 14))
    by reflexivity.
  assert (H3 : 0 <= 50 * 2 ^ 18 <= 100 * 2 ^ 18 /\ 0 <= 1000 * 2 ^ 14 /\
               0 <= 50 * 2 ^ 18 <= 100 * 2 ^ 18) by (cbn; lia).
  split; [exact H0 | split; [exact H1 | split; [exact H2 | ]]].
  exact (proj1 (SET_PARAMS_exact_range Z demo_headers 7 demo_armed
                  _ _ _ _ _ _ H0 H1 H2 H1) H3).
Defined.

Lemma params_test_blind_to_NaN_witness :
  params_invalid demo_params_ok = false /\
  params_invalid demo_params_nan = false.
Proof.
  assert (H0 : params_invalid demo_params_ok = false) by reflexivity.
  split; [exact H0 | ].
  exact (params_test_blind_to_NaN demo_params_ok demo_params_nan H0
           (or_intror eq_refl) (or_intror (or_intror eq_refl))
           (or_introl eq_refl)).
Defined.

Lemma START_current_threshold_witness :
  Limits.lock (limits (priv (mem demo_nan_current))) = true /\
  opmode (priv (mem demo_nan_current)) = POWERLED_OPMODE_FLASH demo_headers /\
  current (limits (priv (mem demo_nan_current))) = S754_nan /\
  powerled_ioctl demo_headers (PWRIOC_START demo_headers) 0 demo_nan_current =
  Done (OK demo_headers) (after_call Start demo_nan_current).
Proof.
  assert (H0 : Limits.lock (limits (priv (mem demo_nan_current))) = true)
    by reflexivity.
  assert (H1 : opmode (priv (mem demo_nan_current)) =
               POWERLED_OPMODE_FLASH demo_headers) by reflexivity.
  assert (H2 : current (limits (priv (mem demo_nan_current))) = S754_nan)
    by reflexivity.
  split; [exact H0 | split; [exact H1 | split; [exact H2 | ]]].
  exact (proj2 (START_current_threshold Z demo_headers 0 demo_nan_current
                  H0 (or_intror H1)) H2).
Defined.

(** * The conditions as worded, at a NaN *)

(** C4 as stated.  A limit current that is a NaN is not strictly
    positive, yet with the limits locked and the mode FLASH the
    dispatcher does not refuse START: it calls [ops->start]. *)
Lemma START_NaN_current_not_refused :
  ~ (forall (H : Type) (hdr : headers) (arg : Z) (s : system H),
       worded_start_refusal hdr (priv (mem s)) ->
       powerled_ioctl hdr (PWRIOC_START hdr) arg s = Done (- EPERM hdr) s).
Proof.
  intros C.
  assert (W : worded_start_refusal demo_headers (priv (mem demo_nan_current)))
    by (right; left; reflexivity).
  specialize (C Z demo_headers 0 demo_nan_current W).
  assert (E : powerled_ioctl demo_headers (PWRIOC_START demo_headers) 0
                demo_nan_current =
              Done (OK demo_headers) (after_call Start demo_nan_current))
    by reflexivity.
  rewrite E in C. injection C as C0 _. discriminate C0.
Qed.



(** Between two positive finite floats, [<=] is the negation of [>]. *)
Lemma SFleb_positive_finite (m1 m2 : positive) (e1 e2 : Z) :
  SFleb (S754_finite false m1 e1) (S754_finite false m2 e2) =
  negb (SFltb (S754_finite false m2 e2) (S754_finite false m1 e1)).
Proof.
  unfold SFleb, SFltb. cbv beta iota delta [SFcompare].
  rewrite (Z.compare_antisym e1 e2).
  destruct (e1 ?= e2); cbv beta iota delta [CompOpp negb]; try reflexivity.
  change (Pos.compare_cont Eq m2 m1) with (m2 ?= m1)%positive.
  change (Pos.compare_cont Eq m1 m2) with (m1 ?= m2)%positive.
  rewrite (Pos.compare_antisym m1 m2).
  destruct (m1 ?= m2)%positive; reflexivity.
Qed.

(** Away from NaN the two readings agree: a value that is not a NaN is
    in [0,100] exactly when it compares neither below 0 nor above 100. *)
Lemma within_0_100_comparisons (x : float) :
  x <> S754_nan ->
  (within_0_100 x = false <->
   flt x float_0 = true \/ fgt x float_100 = true).
Proof.
  intros Hx. unfold within_0_100, fle, flt, fgt, float_0, float_100.
  destruct x as [sg | sg | | sg m e]; [ | | congruence | ].
  - cbv beta iota delta [SFleb SFltb SFcompare andb].
    split; [discriminate | intros [D | D]; discriminate D].
  - destruct sg; cbv beta iota delta [SFleb SFltb SFcompare andb].
    + split; [intros _; now left | reflexivity].
    + split; [intros _; now right | reflexivity].
  - destruct sg.
    + cbv beta iota delta [SFleb SFltb SFcompare andb].
      split; [intros _; now left | reflexivity].
    + rewrite SFleb_positive_finite.
      replace (SFleb (S754_zero false) (S754_finite false m e)) with true
        by reflexivity.
      replace (SFltb (S754_finite false m e) (S754_zero false)) with false
        by reflexivity.
      cbv beta iota delta [andb].
      destruct (SFltb (S754_finite false 13107200 (-17))
                  (S754_finite false m e)); cbv beta iota delta [negb].
      * split; [intros _; now right | reflexivity].
      * split; [discriminate | intros [D | D]; discriminate D].
Qed.

(** * A registration with a [NULL] handle *)

Lemma register_with_NULL_argument_witness :
  (Some "/dev/powerled0"%string = None \/ 0 = 0) /\
  CONFIG_DEBUG_ASSERTIONS demo_headers = true /\
  powerled_register demo_headers 0 (Some "/dev/powerled0"%string) 0
    demo_unregistered = Panic.
Proof.
  assert (H0 : Some "/dev/powerled0"%string = None \/ 0 = 0)
    by (right; reflexivity).
  assert (H1 : CONFIG_DEBUG_ASSERTIONS demo_headers = true) by reflexivity.
  split; [exact H0 | split; [exact H1 | ]].
  exact (proj1 (register_with_NULL_argument Z demo_headers 0
                  (Some "/dev/powerled0"%string) 0 demo_unregistered H0) H1).
Defined.
